(** * Tag bot: a shallow embedding of [main.py]

    The bot keeps two tables, [reparti] (departments of a chat) and [membri]
    (members of a department), and reacts to four commands and to every text
    message.  The handlers of [main.py] are embedded as computations in a
    small state-and-exception monad, so that Python's [try] / [except] /
    [finally], its unbound local variables and the cursor protocol of the
    database driver are visible in the model.

    Conventions of the model:
    - text is a Rocq [string] (a sequence of bytes, UTF-8 for anything that is
      not ASCII); [str.lower] is modelled on the ASCII letters and leaves every
      other byte as it is;
    - a table is the list of its rows, in the order the storage returns them;
    - a statement sent over an open connection succeeds, and so does sending a
      reply: the failures of the outside world that are modelled are the ones
      the code has a branch for, a database that cannot be reached and an
      administrator query that fails. *)

From Stdlib Require Import ZArith List String Ascii Bool Lia.
From Stdlib Require Import DecimalString.
Import ListNotations.
Local Open Scope string_scope.
Local Open Scope Z_scope.
Set Warnings "-register-all".

(** ** Python strings *)

Module PyStr.

(** [c.lower()] on one ASCII character. *)
Definition lower_ascii (c : ascii) : ascii :=
  let n := N_of_ascii c in
  if ((65 <=? n) && (n <=? 90))%N then ascii_of_N (n + 32) else c.

(** [s.lower()] on ASCII text: the letters A-Z become a-z and every other byte
    is kept.  On text outside ASCII [str.lower] does more; the statements about
    letter case are therefore made for any lower-casing function (section
    [LetterCase]), and the other statements use no property of [lower]. *)
Fixpoint lower (s : string) : string :=
  match s with
  | EmptyString => EmptyString
  | String c s' => String (lower_ascii c) (lower s')
  end.

(** [s.startswith(p)] *)
Definition startswith (s p : string) : bool := String.prefix p s.

(** [needle in hay] on strings: some suffix of [hay] starts with [needle]. *)
Fixpoint contains (needle hay : string) : bool :=
  if String.prefix needle hay then true
  else match hay with
       | EmptyString => false
       | String _ hay' => contains needle hay'
       end.

(** Truth value of a string: the empty string is false. *)
Definition truthy (s : string) : bool :=
  match s with EmptyString => false | _ => true end.

(** [str(n)] for an integer. *)
Definition str_int (n : Z) : string := NilZero.string_of_int (Z.to_int n).

(** What an f-string prints for a value that is a string or [None]. *)
Definition str_opt (s : option string) : string :=
  match s with Some x => x | None => "None" end.

(** [sep.join(l)] *)
Fixpoint join (sep : string) (l : list string) : string :=
  match l with
  | [] => ""
  | [x] => x
  | x :: rest => x ++ sep ++ join sep rest
  end.

End PyStr.
Import PyStr.

(** ** The relational store *)

(** A row of [reparti]: (chat_id, reparto_nome). *)
Definition RepartoRow : Type := Z * string.

(** A row of [membri]: chat_id, reparto_nome, user_id and the nullable
    user_name. *)
Record MembroRow := mkMembro {
  m_chat_id : Z;
  m_reparto_nome : string;
  m_user_id : Z;
  m_user_name : option string
}.

Record Store := mkStore {
  reparti : list RepartoRow;
  membri : list MembroRow
}.

Definition empty_store : Store := mkStore [] [].

Module Sql.

Definition reparto_key (chat_id : Z) (reparto_nome : string) (r : RepartoRow) : bool :=
  (fst r =? chat_id) && String.eqb (snd r) reparto_nome.

Definition membro_in (chat_id : Z) (reparto_nome : string) (r : MembroRow) : bool :=
  (m_chat_id r =? chat_id) && String.eqb (m_reparto_nome r) reparto_nome.

Definition membro_key (chat_id : Z) (reparto_nome : string) (user_id : Z)
    (r : MembroRow) : bool :=
  membro_in chat_id reparto_nome r && (m_user_id r =? user_id).

(** SELECT * FROM reparti WHERE chat_id = %s AND reparto_nome = %s *)
Definition select_reparto (chat_id : Z) (reparto_nome : string) (s : Store)
    : list RepartoRow :=
  filter (reparto_key chat_id reparto_nome) (reparti s).

(** SELECT reparto_nome FROM reparti WHERE chat_id = %s *)
Definition select_reparto_nome (chat_id : Z) (s : Store) : list string :=
  map snd (filter (fun r => fst r =? chat_id) (reparti s)).

(** SELECT user_id, user_name FROM membri WHERE chat_id = %s AND reparto_nome = %s *)
Definition select_membri (chat_id : Z) (reparto_nome : string) (s : Store)
    : list (Z * option string) :=
  map (fun r => (m_user_id r, m_user_name r))
      (filter (membro_in chat_id reparto_nome) (membri s)).

(** SELECT user_id FROM membri WHERE chat_id = %s AND reparto_nome = %s *)
Definition select_user_id (chat_id : Z) (reparto_nome : string) (s : Store)
    : list Z :=
  map m_user_id (filter (membro_in chat_id reparto_nome) (membri s)).

(** INSERT INTO reparti (chat_id, reparto_nome) VALUES (%s, %s)
    ON CONFLICT DO NOTHING: the new store and the number of rows inserted. *)
Definition insert_reparto (chat_id : Z) (reparto_nome : string) (s : Store)
    : Store * Z :=
  if existsb (reparto_key chat_id reparto_nome) (reparti s) then (s, 0)
  else (mkStore (reparti s ++ [(chat_id, reparto_nome)]) (membri s), 1).

(** INSERT INTO membri (...) VALUES (%s, %s, %s, %s) ON CONFLICT DO NOTHING.
    The foreign key to [reparti] is checked: [None] is the integrity error. *)
Definition insert_membro (chat_id : Z) (reparto_nome : string) (user_id : Z)
    (user_name : option string) (s : Store) : option (Store * Z) :=
  if existsb (membro_key chat_id reparto_nome user_id) (membri s) then Some (s, 0)
  else if existsb (reparto_key chat_id reparto_nome) (reparti s) then
    Some (mkStore (reparti s)
            (membri s ++ [mkMembro chat_id reparto_nome user_id user_name]), 1)
  else None.

(** DELETE FROM membri WHERE chat_id = %s AND reparto_nome = %s AND user_id = %s:
    the new store and the number of rows deleted. *)
Definition delete_membro (chat_id : Z) (reparto_nome : string) (user_id : Z)
    (s : Store) : Store * Z :=
  (mkStore (reparti s)
     (filter (fun r => negb (membro_key chat_id reparto_nome user_id r)) (membri s)),
   Z.of_nat (List.length (filter (membro_key chat_id reparto_nome user_id) (membri s)))).

End Sql.

(** ** The chat platform *)

Record User := mkUser { id : Z; full_name : string }.

(** The part of a platform message the handlers read.  [text] is [None] for a
    message without text; [reply_to_message] is the message this one answers. *)
Inductive Message := mkMessage {
  chat_id : Z;
  chat_type : string;
  from_user : User;
  text : option string;
  reply_to_message : option Message
}.

(** [update.message] is [None] for an update that is not a new message. *)
Record Update := mkUpdate { message : option Message }.

(** [context.args]: the words after the command, or [None]. *)
Record Context := mkContext { args : option (list string) }.

Record ChatMember := mkChatMember { user : User }.

(** What the handlers cannot decide themselves: whether the database can be
    reached, and the answer of the platform to the administrator query of a
    chat ([None] when the query fails). *)
Record Env := mkEnv {
  db_reachable : bool;
  chat_administrators : Z -> option (list ChatMember)
}.

(** A reply sent with [reply_text]. *)
Record Reply := mkReply { body : string; parse_mode : option string }.

(** ** Exceptions, local variables and the handler monad *)

Inductive Exn :=
| IndexError | TypeError | AttributeError | UnboundLocalError
| IntegrityError | TelegramError.

Inductive Res (A : Type) :=
| Ok (a : A)
| Raised (e : Exn).
Arguments Ok {A} a.
Arguments Raised {A} e.

(** A local variable of a Python function is unbound until it is assigned. *)
Inductive Local (A : Type) :=
| Unbound
| Bound (a : A).
Arguments Unbound {A}.
Arguments Bound {A} a.

(** A database connection object. *)
Inductive Conn := Connection.

(** The statements the handlers send. *)
Inductive Statement :=
| INSERT_reparti (chat : Z) (nome : string)
| SELECT_reparti (chat : Z) (nome : string)
| INSERT_membri (chat : Z) (nome : string) (uid : Z) (uname : option string)
| DELETE_membri (chat : Z) (nome : string) (uid : Z)
| SELECT_membri (chat : Z) (nome : string)
| SELECT_membri_user_id (chat : Z) (nome : string)
| SELECT_reparti_nome (chat : Z).

Definition is_select (q : Statement) : bool :=
  match q with
  | SELECT_reparti _ _ | SELECT_membri _ _ | SELECT_membri_user_id _ _
  | SELECT_reparti_nome _ => true
  | _ => false
  end.

(** The state a handler runs in: the committed tables, the tables as the open
    transaction sees them, the replies sent, the log, the statements executed,
    and the two local variables that an [except] or [finally] clause reads. *)
Record St := mkSt {
  store : Store;
  txn : Store;
  sent : list Reply;
  logged : list string;
  executed : list Statement;
  var_conn : Local (option Conn);
  var_reparto_nome : Local string
}.

Definition M (A : Type) : Type := St -> Res A * St.

Definition ret {A} (a : A) : M A := fun s => (Ok a, s).

Definition bind {A B} (c : M A) (k : A -> M B) : M B :=
  fun s => match c s with
           | (Ok a, s') => k a s'
           | (Raised e, s') => (Raised e, s')
           end.

Definition raise {A} (e : Exn) : M A := fun s => (Raised e, s).

Notation "x <- c ;; k" := (bind c (fun x => k))
  (at level 61, c at next level, right associativity).
Notation "c ;; k" := (bind c (fun _ => k))
  (at level 61, right associativity).

(** [try: body except ...: handler e]: every exception of the model is an
    [Exception], so the clauses together catch all of them; an exception
    raised by the clause itself propagates. *)
Definition try_except {A} (body : M A) (handler : Exn -> M A) : M A :=
  fun s => match body s with
           | (Ok a, s') => (Ok a, s')
           | (Raised e, s') => handler e s'
           end.

(** [try: body finally: cleanup]: the cleanup runs on every exit; when it
    raises, its exception replaces the outcome of the body. *)
Definition try_finally {A} (body : M A) (cleanup : M unit) : M A :=
  fun s => match body s with
           | (r, s') => match cleanup s' with
                        | (Ok _, s'') => (r, s'')
                        | (Raised e, s'') => (Raised e, s'')
                        end
           end.

Definition initial (db : Store) : St :=
  mkSt db db [] [] [] Unbound Unbound.

(** Run a handler on the committed tables [db]. *)
Definition run {A} (h : M A) (db : Store) : Res A * St := h (initial db).

Definition result {A} (o : Res A * St) : Res A := fst o.
Definition replies {A} (o : Res A * St) : list Reply := sent (snd o).
Definition final_store {A} (o : Res A * St) : Store := store (snd o).
Definition statements {A} (o : Res A * St) : list Statement := executed (snd o).

(** *** Primitive effects *)

Definition upd_sent (f : list Reply -> list Reply) (s : St) : St :=
  mkSt (store s) (txn s) (f (sent s)) (logged s) (executed s)
       (var_conn s) (var_reparto_nome s).

Definition upd_txn (q : Statement) (t : Store) (s : St) : St :=
  mkSt (store s) t (sent s) (logged s) (executed s ++ [q])
       (var_conn s) (var_reparto_nome s).

(** [logger.error(...)] *)
Definition logger_error (msg : string) : M unit :=
  fun s => (Ok tt, mkSt (store s) (txn s) (sent s) (logged s ++ [msg])
                        (executed s) (var_conn s) (var_reparto_nome s)).

(** [update.message]: reading an attribute of it fails when it is [None]. *)
Definition the_message (upd : Update) : M Message :=
  match message upd with
  | Some m => ret m
  | None => raise AttributeError
  end.

(** [await update.message.reply_text(body, parse_mode=...)] *)
Definition reply_text (upd : Update) (b : string) (mode : option string) : M unit :=
  _ <- the_message upd ;;
  fun s => (Ok tt, upd_sent (fun l => (l ++ [mkReply b mode])%list) s).

(** [context.args[0]] *)
Definition args_0 (ctx : Context) : M string :=
  match args ctx with
  | None => raise TypeError
  | Some [] => raise IndexError
  | Some (a :: _) => ret a
  end.

(** [await context.bot.get_chat_administrators(chat_id)] *)
Definition get_chat_administrators (env : Env) (chat : Z) : M (list ChatMember) :=
  match chat_administrators env chat with
  | Some l => ret l
  | None => raise TelegramError
  end.

(** [get_db_connection()]: a connection, whose transaction starts from the
    committed tables, or [None] (after logging) when connecting fails. *)
Definition get_db_connection (env : Env) : M (option Conn) :=
  if db_reachable env then
    fun s => (Ok (Some Connection),
              mkSt (store s) (store s) (sent s) (logged s) (executed s)
                   (var_conn s) (var_reparto_nome s))
  else
    logger_error "Errore di connessione al database" ;; ret None.

Definition assign_conn (c : option Conn) : M unit :=
  fun s => (Ok tt, mkSt (store s) (txn s) (sent s) (logged s) (executed s)
                        (Bound c) (var_reparto_nome s)).

Definition assign_reparto_nome (n : string) : M unit :=
  fun s => (Ok tt, mkSt (store s) (txn s) (sent s) (logged s) (executed s)
                        (var_conn s) (Bound n)).

(** Reading a local variable that was never assigned raises. *)
Definition read_conn : M (option Conn) :=
  fun s => match var_conn s with
           | Bound c => (Ok c, s)
           | Unbound => (Raised UnboundLocalError, s)
           end.

Definition read_reparto_nome : M string :=
  fun s => match var_reparto_nome s with
           | Bound n => (Ok n, s)
           | Unbound => (Raised UnboundLocalError, s)
           end.

(** *** Cursors *)

(** A cursor: the number of rows of its last statement and the rows fetched.
    A cursor that has executed nothing has [rowcount = -1]. *)
Record Cursor (R : Type) := mkCursor { rowcount : Z; rows : list R }.
Arguments mkCursor {R} rowcount rows.
Arguments rowcount {R} c.
Arguments rows {R} c.

(** [conn.cursor()]: an attribute access on [None] fails. *)
Definition cursor (conn : option Conn) : M (Cursor unit) :=
  match conn with
  | Some _ => ret (mkCursor (-1) [])
  | None => raise AttributeError
  end.

Definition fetchone {R} (cur : Cursor R) : option R := hd_error (rows cur).
Definition fetchall {R} (cur : Cursor R) : list R := rows cur.

Definition query {R} (q : Statement) (f : Store -> list R) : M (Cursor R) :=
  fun s => let r := f (txn s) in
           (Ok (mkCursor (Z.of_nat (List.length r)) r), upd_txn q (txn s) s).

Definition execute_select_reparto {R} (cur : Cursor R) (chat : Z) (nome : string)
    : M (Cursor RepartoRow) :=
  query (SELECT_reparti chat nome) (Sql.select_reparto chat nome).

Definition execute_select_reparto_nome {R} (cur : Cursor R) (chat : Z)
    : M (Cursor string) :=
  query (SELECT_reparti_nome chat) (Sql.select_reparto_nome chat).

Definition execute_select_membri {R} (cur : Cursor R) (chat : Z) (nome : string)
    : M (Cursor (Z * option string)) :=
  query (SELECT_membri chat nome) (Sql.select_membri chat nome).

Definition execute_select_user_id {R} (cur : Cursor R) (chat : Z) (nome : string)
    : M (Cursor Z) :=
  query (SELECT_membri_user_id chat nome) (Sql.select_user_id chat nome).

Definition execute_insert_reparto {R} (cur : Cursor R) (chat : Z) (nome : string)
    : M (Cursor unit) :=
  fun s => let '(t, n) := Sql.insert_reparto chat nome (txn s) in
           (Ok (mkCursor n []), upd_txn (INSERT_reparti chat nome) t s).

Definition execute_insert_membro {R} (cur : Cursor R) (chat : Z) (nome : string)
    (uid : Z) (uname : option string) : M (Cursor unit) :=
  fun s => match Sql.insert_membro chat nome uid uname (txn s) with
           | Some (t, n) =>
               (Ok (mkCursor n []), upd_txn (INSERT_membri chat nome uid uname) t s)
           | None =>
               (Raised IntegrityError,
                upd_txn (INSERT_membri chat nome uid uname) (txn s) s)
           end.

Definition execute_delete_membro {R} (cur : Cursor R) (chat : Z) (nome : string)
    (uid : Z) : M (Cursor unit) :=
  fun s => let '(t, n) := Sql.delete_membro chat nome uid (txn s) in
           (Ok (mkCursor n []), upd_txn (DELETE_membri chat nome uid) t s).

(** [conn.commit()]: the transaction's tables become the committed ones. *)
Definition commit (conn : option Conn) : M unit :=
  match conn with
  | Some _ =>
      fun s => (Ok tt, mkSt (txn s) (txn s) (sent s) (logged s) (executed s)
                            (var_conn s) (var_reparto_nome s))
  | None => raise AttributeError
  end.

(** [conn.close()]: what was not committed is dropped. *)
Definition close (conn : option Conn) : M unit :=
  match conn with
  | Some _ =>
      fun s => (Ok tt, mkSt (store s) (store s) (sent s) (logged s) (executed s)
                            (var_conn s) (var_reparto_nome s))
  | None => raise AttributeError
  end.

(** The [finally] clause of the four command handlers:
    [if conn: conn.close()]. *)
Definition close_if_conn : M unit :=
  conn <- read_conn ;;
  match conn with
  | Some _ => close conn
  | None => ret tt
  end.

(** ** The handlers of [main.py] *)

(** [is_admin]: is the sender of the command allowed to administer the chat? *)
Definition is_admin (env : Env) (upd : Update) : M bool :=
  m <- the_message upd ;;
  if String.eqb (chat_type m) "private" then ret true
  else
    try_except
      (chat_admins <- get_chat_administrators env (chat_id m) ;;
       let admin_ids := map (fun admin => id (user admin)) chat_admins in
       ret (existsb (Z.eqb (id (from_user m))) admin_ids))
      (fun _ =>
         logger_error "Errore nel controllare i permessi admin" ;;
         reply_text upd
           "Non riesco a verificare i tuoi permessi. Assicurati che io sia admin nel gruppo."
           None ;;
         ret false).

Definition solo_admin : string :=
  "Questo comando può essere usato solo dagli admin del gruppo.".

(** [/crea_reparto @nome] *)
Definition crea_reparto (env : Env) (upd : Update) (ctx : Context) : M unit :=
  ok <- is_admin env upd ;;
  if negb ok then reply_text upd solo_admin None
  else
    try_finally
      (try_except
         (a0 <- args_0 ctx ;;
          let reparto_nome := lower a0 in
          assign_reparto_nome reparto_nome ;;
          if negb (startswith reparto_nome "@") then
            reply_text upd
              "Formato errato. Il nome del reparto deve iniziare con @ (es: /crea_reparto @aero)"
              None
          else
            m <- the_message upd ;;
            let chat_id := chat_id m in
            conn <- get_db_connection env ;;
            assign_conn conn ;;
            cur <- cursor conn ;;
            _ <- execute_insert_reparto cur chat_id reparto_nome ;;
            commit conn ;;
            reply_text upd ("Reparto " ++ reparto_nome ++ " creato con successo!") None)
         (fun e =>
            match e with
            | IndexError | TypeError =>
                reply_text upd "Uso: /crea_reparto @nome_reparto" None
            | _ =>
                logger_error "Errore in /crea_reparto" ;;
                reparto_nome <- read_reparto_nome ;;
                reply_text upd
                  ("Errore: il reparto " ++ reparto_nome
                   ++ " esiste già o c'è stato un problema.") None
            end))
      close_if_conn.

(** [/aggiungi_membro @nome], sent as an answer to a message of the user. *)
Definition aggiungi_membro (env : Env) (upd : Update) (ctx : Context) : M unit :=
  ok <- is_admin env upd ;;
  if negb ok then reply_text upd solo_admin None
  else
    m <- the_message upd ;;
    match reply_to_message m with
    | None =>
        reply_text upd "Devi rispondere al messaggio di un utente per aggiungerlo." None
    | Some replied =>
        try_finally
          (try_except
             (a0 <- args_0 ctx ;;
              let reparto_nome := lower a0 in
              let chat_id := chat_id m in
              let utente_da_aggiungere := from_user replied in
              conn <- get_db_connection env ;;
              assign_conn conn ;;
              cur <- cursor conn ;;
              cur <- execute_select_reparto cur chat_id reparto_nome ;;
              match fetchone cur with
              | None =>
                  reply_text upd
                    ("Il reparto " ++ reparto_nome
                     ++ " non esiste. Crealo prima con /crea_reparto " ++ reparto_nome)
                    None
              | Some _ =>
                  _ <- execute_insert_membro cur chat_id reparto_nome
                         (id utente_da_aggiungere)
                         (Some (full_name utente_da_aggiungere)) ;;
                  commit conn ;;
                  reply_text upd
                    ("Utente " ++ full_name utente_da_aggiungere ++ " aggiunto a "
                     ++ reparto_nome ++ ".") None
              end)
             (fun e =>
                match e with
                | IndexError | TypeError =>
                    reply_text upd
                      "Uso: Rispondi a un utente con /aggiungi_membro @nome_reparto" None
                | _ =>
                    logger_error "Errore in /aggiungi_membro" ;;
                    reply_text upd "Si è verificato un errore." None
                end))
          close_if_conn
    end.

(** [/rimuovi_membro @nome], sent as an answer to a message of the user.
    The row count that chooses the reply is read from [conn.cursor()], a new
    cursor, not from the cursor that executed the DELETE. *)
Definition rimuovi_membro (env : Env) (upd : Update) (ctx : Context) : M unit :=
  ok <- is_admin env upd ;;
  if negb ok then reply_text upd solo_admin None
  else
    m <- the_message upd ;;
    match reply_to_message m with
    | None =>
        reply_text upd "Devi rispondere al messaggio di un utente per rimuoverlo." None
    | Some replied =>
        try_finally
          (try_except
             (a0 <- args_0 ctx ;;
              let reparto_nome := lower a0 in
              let chat_id := chat_id m in
              let utente_da_rimuovere := from_user replied in
              conn <- get_db_connection env ;;
              assign_conn conn ;;
              cur <- cursor conn ;;
              _ <- execute_delete_membro cur chat_id reparto_nome
                     (id utente_da_rimuovere) ;;
              commit conn ;;
              fresh <- cursor conn ;;
              if rowcount fresh =? 0 then
                reply_text upd
                  ("L'utente " ++ full_name utente_da_rimuovere ++ " non era in "
                   ++ reparto_nome ++ ".") None
              else
                reply_text upd
                  ("Utente " ++ full_name utente_da_rimuovere ++ " rimosso da "
                   ++ reparto_nome ++ ".") None)
             (fun e =>
                match e with
                | IndexError | TypeError =>
                    reply_text upd
                      "Uso: Rispondi a un utente con /rimuovi_membro @nome_reparto" None
                | _ =>
                    logger_error "Errore in /rimuovi_membro" ;;
                    reply_text upd "Si è verificato un errore." None
                end))
          close_if_conn
    end.

(** The newline character of a Python string literal. *)
Definition nl : string := String (ascii_of_N 10) "".

(** The zero-width space U+200B, in UTF-8. *)
Definition zwsp : string :=
  String (ascii_of_N 226) (String (ascii_of_N 128) (String (ascii_of_N 139) "")).

(** One line of the member list, as the loop of [lista_reparto] appends it. *)
Definition riga_membro (row : Z * option string) : string :=
  let '(user_id, user_name) := row in
  "- " ++ str_opt user_name ++ " ([ID: " ++ str_int user_id ++ "])" ++ nl.

(** [for user_id, user_name in membri: messaggio += ...] *)
Fixpoint righe_membri (messaggio : string) (membri : list (Z * option string))
    : string :=
  match membri with
  | [] => messaggio
  | row :: rest => righe_membri (messaggio ++ riga_membro row) rest
  end.

(** [/lista_reparto @nome] *)
Definition lista_reparto (env : Env) (upd : Update) (ctx : Context) : M unit :=
  try_finally
    (try_except
       (a0 <- args_0 ctx ;;
        let reparto_nome := lower a0 in
        m <- the_message upd ;;
        let chat_id := chat_id m in
        conn <- get_db_connection env ;;
        assign_conn conn ;;
        cur <- cursor conn ;;
        cur <- execute_select_membri cur chat_id reparto_nome ;;
        let membri := fetchall cur in
        match membri with
        | [] =>
            reply_text upd
              ("Nessun membro trovato per il reparto " ++ reparto_nome ++ ".") None
        | _ =>
            let messaggio := "Membri del reparto " ++ reparto_nome ++ ":" ++ nl in
            reply_text upd (righe_membri messaggio membri) None
        end)
       (fun e =>
          match e with
          | IndexError | TypeError =>
              reply_text upd "Uso: /lista_reparto @nome_reparto" None
          | _ =>
              logger_error "Errore in /lista_reparto" ;;
              reply_text upd "Si è verificato un errore." None
          end))
    close_if_conn.

(** The loop of [gestore_messaggi] over the registered names: the first name
    that occurs in the text, and the loop stops there. *)
Fixpoint primo_reparto (reparti_registrati : list string) (testo_messaggio : string)
    : option string :=
  match reparti_registrati with
  | [] => None
  | reparto_nome :: rest =>
      if contains reparto_nome testo_messaggio then Some reparto_nome
      else primo_reparto rest testo_messaggio
  end.

(** The mention of one user: an invisible link to the user. *)
Definition tag (user_id : Z) : string :=
  "[" ++ zwsp ++ "](tg://user?id=" ++ str_int user_id ++ ")".

(** The text of the call for a department. *)
Definition messaggio_tags (reparto : string) (membri_da_taggare : list Z) : string :=
  "🔔 Chiamata per " ++ reparto ++ ":" ++ nl ++ join " " (map tag membri_da_taggare).

(** [gestore_messaggi]: every text message that is not a command. *)
Definition gestore_messaggi (env : Env) (upd : Update) : M unit :=
  match message upd with
  | None => ret tt
  | Some m =>
      match text m with
      | None => ret tt
      | Some t =>
          if negb (truthy t) then ret tt
          else
            let chat_id := chat_id m in
            let testo_messaggio := lower t in
            conn <- get_db_connection env ;;
            match conn with
            | None => ret tt
            | Some _ =>
                try_finally
                  (try_except
                     (cur <- cursor conn ;;
                      cur <- execute_select_reparto_nome cur chat_id ;;
                      let reparti_registrati := fetchall cur in
                      match primo_reparto reparti_registrati testo_messaggio with
                      | None => ret tt
                      | Some reparto_da_taggare =>
                          if truthy reparto_da_taggare then
                            cur <- execute_select_user_id cur chat_id reparto_da_taggare ;;
                            let membri_da_taggare := fetchall cur in
                            match membri_da_taggare with
                            | [] => ret tt
                            | _ =>
                                reply_text upd
                                  (messaggio_tags reparto_da_taggare membri_da_taggare)
                                  (Some "Markdown")
                            end
                          else ret tt
                      end)
                     (fun _ => logger_error "Errore nel gestore_messaggi"))
                  (close conn)
            end
      end
  end.

(** ** The handlers over any lower-casing function

    [PyStr.lower] is [str.lower] on ASCII text only.  For statements about
    letter case the two handlers that matter are given once more with the
    lower-casing function as a parameter [lw], line by line as above; at
    [lw := lower] they are the handlers above. *)

(** [s] holds ASCII characters only. *)
Fixpoint is_ascii (s : string) : bool :=
  match s with
  | EmptyString => true
  | String c s' => (N_of_ascii c <? 128)%N && is_ascii s'
  end.

(** [gestore_messaggi], with [update.message.text.lower()] as [lw t]. *)
Definition gestore_messaggi_con (lw : string -> string) (env : Env) (upd : Update)
    : M unit :=
  match message upd with
  | None => ret tt
  | Some m =>
      match text m with
      | None => ret tt
      | Some t =>
          if negb (truthy t) then ret tt
          else
            let chat_id := chat_id m in
            let testo_messaggio := lw t in
            conn <- get_db_connection env ;;
            match conn with
            | None => ret tt
            | Some _ =>
                try_finally
                  (try_except
                     (cur <- cursor conn ;;
                      cur <- execute_select_reparto_nome cur chat_id ;;
                      let reparti_registrati := fetchall cur in
                      match primo_reparto reparti_registrati testo_messaggio with
                      | None => ret tt
                      | Some reparto_da_taggare =>
                          if truthy reparto_da_taggare then
                            cur <- execute_select_user_id cur chat_id reparto_da_taggare ;;
                            let membri_da_taggare := fetchall cur in
                            match membri_da_taggare with
                            | [] => ret tt
                            | _ =>
                                reply_text upd
                                  (messaggio_tags reparto_da_taggare membri_da_taggare)
                                  (Some "Markdown")
                            end
                          else ret tt
                      end)
                     (fun _ => logger_error "Errore nel gestore_messaggi"))
                  (close conn)
            end
      end
  end.

(** [crea_reparto], with [context.args[0].lower()] as [lw a0]. *)
Definition crea_reparto_con (lw : string -> string) (env : Env) (upd : Update)
    (ctx : Context) : M unit :=
  ok <- is_admin env upd ;;
  if negb ok then reply_text upd solo_admin None
  else
    try_finally
      (try_except
         (a0 <- args_0 ctx ;;
          let reparto_nome := lw a0 in
          assign_reparto_nome reparto_nome ;;
          if negb (startswith reparto_nome "@") then
            reply_text upd
              "Formato errato. Il nome del reparto deve iniziare con @ (es: /crea_reparto @aero)"
              None
          else
            m <- the_message upd ;;
            let chat_id := chat_id m in
            conn <- get_db_connection env ;;
            assign_conn conn ;;
            cur <- cursor conn ;;
            _ <- execute_insert_reparto cur chat_id reparto_nome ;;
            commit conn ;;
            reply_text upd ("Reparto " ++ reparto_nome ++ " creato con successo!") None)
         (fun e =>
            match e with
            | IndexError | TypeError =>
                reply_text upd "Uso: /crea_reparto @nome_reparto" None
            | _ =>
                logger_error "Errore in /crea_reparto" ;;
                reparto_nome <- read_reparto_nome ;;
                reply_text upd
                  ("Errore: il reparto " ++ reparto_nome
                   ++ " esiste già o c'è stato un problema.") None
            end))
      close_if_conn.

(** ** Notions used in the statements *)

(** What [is_admin] decides when the administrator query answers. *)
Definition autorizzato (env : Env) (m : Message) : bool :=
  String.eqb (chat_type m) "private"
  || match chat_administrators env (chat_id m) with
     | Some chat_admins =>
         existsb (Z.eqb (id (from_user m)))
                 (map (fun admin => id (user admin)) chat_admins)
     | None => false
     end.

(** Every stored department name starts with the tag marker: the only
    statement that inserts into [reparti] is the one of [crea_reparto], after
    its [startswith('@')] test. *)
Definition nomi_validi (db : Store) : bool :=
  forallb (fun r => startswith (snd r) "@") (reparti db).

(** The primary key of [reparti]: no (chat_id, reparto_nome) pair twice. *)
Definition pk_reparti (db : Store) : Prop := NoDup (reparti db).

(** Number of rows of [reparti] with the given key. *)
Definition righe_reparto (chat : Z) (nome : string) (db : Store) : nat :=
  List.length (Sql.select_reparto chat nome db).

(** The reply that calls the members of a department. *)
Definition chiamata (reparto : string) (ids : list Z) : Reply :=
  mkReply (messaggio_tags reparto ids) (Some "Markdown").

(** The line of the member list as the specification words it:
    "- <displayName> (ID: <userId>)". *)
Definition riga_spec (row : Z * option string) : string :=
  "- " ++ str_opt (snd row) ++ " (ID: " ++ str_int (fst row) ++ ")".

(** The message [m] with its text replaced by [x]. *)
Definition con_testo (m : Message) (x : string) : Message :=
  mkMessage (chat_id m) (chat_type m) (from_user m) (Some x) (reply_to_message m).

(** The replies of the command handlers. *)
Definition diagnostica_admin : Reply :=
  mkReply
    "Non riesco a verificare i tuoi permessi. Assicurati che io sia admin nel gruppo."
    None.

Definition reparto_creato (nome : string) : Reply :=
  mkReply ("Reparto " ++ nome ++ " creato con successo!") None.

Definition reparto_inesistente (nome : string) : Reply :=
  mkReply ("Il reparto " ++ nome ++ " non esiste. Crealo prima con /crea_reparto "
           ++ nome) None.

Definition non_era_in (u : User) (nome : string) : Reply :=
  mkReply ("L'utente " ++ full_name u ++ " non era in " ++ nome ++ ".") None.

Definition rimosso_da (u : User) (nome : string) : Reply :=
  mkReply ("Utente " ++ full_name u ++ " rimosso da " ++ nome ++ ".") None.

(** ** A small chat used in the examples *)

Module Esempio.

Definition capo : User := mkUser 1 "Admin".
Definition ann : User := mkUser 7 "Ann".
Definition bob : User := mkUser 8 "Bob".

(** A group where [capo] is the only administrator; the database answers. *)
Definition env : Env :=
  mkEnv true (fun _ => Some [mkChatMember capo]).

(** The same group when the administrator query fails. *)
Definition env_senza_admin : Env := mkEnv true (fun _ => None).

(** A message of [u] in the group 100. *)
Definition msg (u : User) (t : option string) (r : option Message) : Message :=
  mkMessage 100 "group" u t r.

(** A message in a one-to-one chat. *)
Definition msg_privato (u : User) (t : option string) : Message :=
  mkMessage 55 "private" u t None.

Definition comando (u : User) : Update := mkUpdate (Some (msg u None None)).

(** A command of [capo] sent as an answer to a message of [u]. *)
Definition comando_su (u : User) : Update :=
  mkUpdate (Some (msg capo None (Some (msg u (Some "ciao") None)))).

Definition testo (t : string) : Update := mkUpdate (Some (msg ann (Some t) None)).

(** Two departments; [ann] is the only member of "@aero", "@naval" is empty. *)
Definition db : Store :=
  mkStore [(100, "@aero"); (100, "@naval")]
          [mkMembro 100 "@aero" 7 (Some "Ann")].

End Esempio.

(** ** The schema and [setup_database] *)

(** The database before the handlers run: a table may not exist yet. *)
Record Database := mkDatabase {
  tab_reparti : option (list RepartoRow);
  tab_membri : option (list MembroRow)
}.

(** CREATE TABLE IF NOT EXISTS reparti (...) *)
Definition create_reparti (d : Database) : Database :=
  match tab_reparti d with
  | Some _ => d
  | None => mkDatabase (Some []) (tab_membri d)
  end.

(** CREATE TABLE IF NOT EXISTS membri (... FOREIGN KEY ... REFERENCES reparti):
    creating the table needs the table it references; [None] is the error. *)
Definition create_membri (d : Database) : option Database :=
  match tab_membri d with
  | Some _ => Some d
  | None =>
      match tab_reparti d with
      | Some _ => Some (mkDatabase (tab_reparti d) (Some []))
      | None => None
      end
  end.

(** [setup_database]: the committed database and what was logged.  Without a
    connection it returns at once; the two statements run in one transaction,
    committed when both succeed and dropped by [conn.close()] otherwise. *)
Definition setup_database (env : Env) (d : Database) : Database * list string :=
  if db_reachable env then
    match create_membri (create_reparti d) with
    | Some d' => (d', ["Tabelle del database verificate/create con successo."])
    | None => (d, ["Errore durante la creazione delle tabelle"])
    end
  else (d, ["Errore di connessione al database"]).

(** The tables the handlers work on, once both exist. *)
Definition store_of (d : Database) : option Store :=
  match tab_reparti d, tab_membri d with
  | Some r, Some m => Some (mkStore r m)
  | _, _ => None
  end.

(** ** The handlers registered in [main] *)

(** An update as [main] routes it: a command, by the registered name the
    dispatcher matched it with, or a text message that is not a command. *)
Inductive Evento :=
| Comando (nome : string) (upd : Update) (ctx : Context)
| Testo (upd : Update).

(** The update an event carries. *)
Definition aggiornamento (ev : Evento) : Update :=
  match ev with
  | Comando _ upd _ => upd
  | Testo upd => upd
  end.

(** The [add_handler] calls of [main]; a command without a handler is dropped. *)
Definition gestore (env : Env) (ev : Evento) : M unit :=
  match ev with
  | Comando nome upd ctx =>
      if String.eqb nome "crea_reparto" then crea_reparto env upd ctx
      else if String.eqb nome "aggiungi_membro" then aggiungi_membro env upd ctx
      else if String.eqb nome "rimuovi_membro" then rimuovi_membro env upd ctx
      else if String.eqb nome "lista_reparto" then lista_reparto env upd ctx
      else ret tt
  | Testo upd => gestore_messaggi env upd
  end.

(** The committed tables after one update, and after a sequence of updates,
    each met in its own state of the outside world. *)
Definition passo (db : Store) (e : Env * Evento) : Store :=
  final_store (run (gestore (fst e) (snd e)) db).

Definition esegui (db : Store) (evs : list (Env * Evento)) : Store :=
  fold_left passo evs db.

(** ** Integrity of the tables *)

Definition membro_pk (r : MembroRow) : Z * string * Z :=
  (m_chat_id r, m_reparto_nome r, m_user_id r).

(** The primary key of [membri]. *)
Definition pk_membri (db : Store) : Prop := NoDup (map membro_pk (membri db)).

(** The foreign key of [membri]: the department of every member is stored. *)
Definition fk_membri (db : Store) : bool :=
  forallb (fun r => existsb (Sql.reparto_key (m_chat_id r) (m_reparto_nome r))
                            (reparti db))
          (membri db).

Definition integro (db : Store) : Prop :=
  pk_reparti db /\ pk_membri db /\ fk_membri db = true /\ nomi_validi db = true.

(** The rows of the two tables that belong to [chat]. *)
Definition righe_chat (chat : Z) (db : Store) : Store :=
  mkStore (filter (fun r => fst r =? chat) (reparti db))
          (filter (fun r => m_chat_id r =? chat) (membri db)).

(** The rows of the two tables that belong to other chats than [chat]. *)
Definition altre_chat (chat : Z) (db : Store) : Store :=
  mkStore (filter (fun r => negb (fst r =? chat)) (reparti db))
          (filter (fun r => negb (m_chat_id r =? chat)) (membri db)).

(** The tables after the INSERT of [aggiungi_membro] on a stored department. *)
Definition con_membro (chat : Z) (nome : string) (u : User) (db : Store) : Store :=
  if existsb (Sql.membro_key chat nome (id u)) (membri db) then db
  else mkStore (reparti db)
               (membri db ++ [mkMembro chat nome (id u) (Some (full_name u))]).

(** The replies of a command refused for lack of rights: the message for
    administrators only, after the diagnostic of [is_admin] when the
    administrator query failed. *)
Definition rifiuto (env : Env) (m : Message) : list Reply :=
  match chat_administrators env (chat_id m) with
  | Some _ => [mkReply solo_admin None]
  | None => [diagnostica_admin; mkReply solo_admin None]
  end.

(** More replies of the command handlers. *)
Definition membro_aggiunto (u : User) (nome : string) : Reply :=
  mkReply ("Utente " ++ full_name u ++ " aggiunto a " ++ nome ++ ".") None.

Definition nessun_membro (nome : string) : Reply :=
  mkReply ("Nessun membro trovato per il reparto " ++ nome ++ ".") None.

Definition formato_errato : Reply :=
  mkReply
    "Formato errato. Il nome del reparto deve iniziare con @ (es: /crea_reparto @aero)"
    None.

Definition errore_generico : Reply := mkReply "Si è verificato un errore." None.

Definition errore_crea (nome : string) : Reply :=
  mkReply ("Errore: il reparto " ++ nome ++ " esiste già o c'è stato un problema.")
          None.

Definition rispondi_per_aggiungere : Reply :=
  mkReply "Devi rispondere al messaggio di un utente per aggiungerlo." None.

Definition rispondi_per_rimuovere : Reply :=
  mkReply "Devi rispondere al messaggio di un utente per rimuoverlo." None.

(** ** Facts about strings *)

Section StringFacts.

Lemma lower_ascii_idem (c : ascii) : lower_ascii (lower_ascii c) = lower_ascii c.
Proof. destruct c as [[] [] [] [] [] [] [] []]; reflexivity. Qed.

Lemma lower_idem (s : string) : lower (lower s) = lower s.
Proof.
  induction s as [|c s IH]; simpl.
  - reflexivity.
  - now rewrite lower_ascii_idem, IH.
Qed.

Lemma lower_app (a b : string) : lower (a ++ b) = lower a ++ lower b.
Proof.
  induction a as [|c a IH]; simpl; [reflexivity | now rewrite IH].
Qed.

Lemma truthy_lower (s : string) : truthy (lower s) = truthy s.
Proof. now destruct s. Qed.

Lemma prefix_app (n b : string) : String.prefix n (n ++ b) = true.
Proof.
  induction n as [|c n IH]; simpl.
  - now destruct b.
  - destruct (ascii_dec c c) as [_|ne]; [exact IH | now elim ne].
Qed.

Lemma prefix_inv (n h : string) :
  String.prefix n h = true -> exists b, h = n ++ b.
Proof.
  revert h; induction n as [|c n IH]; intros h H.
  - now exists h.
  - destruct h as [|d h]; simpl in H; [discriminate|].
    destruct (ascii_dec c d) as [->|_]; [|discriminate].
    destruct (IH h H) as [b ->]. now exists b.
Qed.

Lemma contains_unfold (n h : string) :
  contains n h =
  if String.prefix n h then true
  else match h with
       | EmptyString => false
       | String _ h' => contains n h'
       end.
Proof. now destruct h. Qed.

Lemma contains_app (n a b : string) : contains n (a ++ n ++ b) = true.
Proof.
  induction a as [|c a IH].
  - rewrite contains_unfold. simpl (_ ++ _). now rewrite prefix_app.
  - change ((String c a) ++ n ++ b) with (String c (a ++ n ++ b)).
    rewrite contains_unfold, IH. now destruct (String.prefix n _).
Qed.

Lemma contains_inv (n h : string) :
  contains n h = true -> exists a b, h = a ++ n ++ b.
Proof.
  induction h as [|c h IH]; rewrite contains_unfold; intros H.
  - destruct (String.prefix n "") eqn:P; [|discriminate].
    destruct (prefix_inv _ _ P) as [b E]. now exists "", b.
  - destruct (String.prefix n (String c h)) eqn:P.
    + destruct (prefix_inv _ _ P) as [b E]. now exists "", b.
    + destruct (IH H) as (a & b & ->). now exists (String c a), b.
Qed.

Lemma append_nil_r (s : string) : s ++ "" = s.
Proof. induction s as [|c s IH]; simpl; [reflexivity | now rewrite IH]. Qed.

Lemma append_assoc (a b c : string) : (a ++ b) ++ c = a ++ b ++ c.
Proof. induction a as [|x a IH]; simpl; [reflexivity | now rewrite IH]. Qed.

Lemma join_empty_cons (x : string) (l : list string) :
  join "" (x :: l) = x ++ join "" l.
Proof. destruct l; simpl; [now rewrite append_nil_r | reflexivity]. Qed.

(** A name that starts with the tag marker is not the empty string. *)
Lemma startswith_truthy (s : string) : startswith s "@" = true -> truthy s = true.
Proof. now destruct s. Qed.

End StringFacts.

(** ** The authorization check *)

Section IsAdmin.

Variable env : Env.

Lemma is_admin_private (m : Message) (s : St) :
  chat_type m = "private" ->
  is_admin env (mkUpdate (Some m)) s = (Ok true, s).
Proof.
  intros H. unfold is_admin, the_message, bind, ret; simpl. now rewrite H.
Qed.

Lemma is_admin_group (m : Message) (s : St) (chat_admins : list ChatMember) :
  chat_type m <> "private" ->
  chat_administrators env (chat_id m) = Some chat_admins ->
  is_admin env (mkUpdate (Some m)) s =
  (Ok (existsb (Z.eqb (id (from_user m)))
               (map (fun admin => id (user admin)) chat_admins)), s).
Proof.
  intros Hg Ha. apply String.eqb_neq in Hg.
  unfold is_admin, the_message, try_except, get_chat_administrators, bind, ret.
  simpl. now rewrite Hg, Ha.
Qed.

Lemma is_admin_autorizzato (m : Message) (s : St) :
  autorizzato env m = true ->
  is_admin env (mkUpdate (Some m)) s = (Ok true, s).
Proof.
  unfold autorizzato. intros H.
  destruct (String.eqb (chat_type m) "private") eqn:P.
  - apply String.eqb_eq in P. now apply is_admin_private.
  - apply String.eqb_neq in P. simpl in H.
    destruct (chat_administrators env (chat_id m)) as [l|] eqn:A; [|discriminate].
    rewrite (is_admin_group m s l P A). now rewrite H.
Qed.

End IsAdmin.

(** C9.  [is_admin] answers [True] in a one-to-one chat without asking the
    platform; in any other chat it answers whether the identifier of the
    sender is among the identifiers of the administrators the platform lists;
    and when that query fails it answers [False] after sending the message
    that asks to make the bot an administrator. *)
Theorem is_admin_policy (env : Env) (m : Message) (db : Store) :
  let o := run (is_admin env (mkUpdate (Some m))) db in
  (chat_type m = "private" -> result o = Ok true /\ replies o = []) /\
  (forall chat_admins,
      chat_type m <> "private" ->
      chat_administrators env (chat_id m) = Some chat_admins ->
      replies o = [] /\
      exists b, result o = Ok b /\
        (b = true <->
         In (id (from_user m)) (map (fun admin => id (user admin)) chat_admins))) /\
  (chat_type m <> "private" ->
   chat_administrators env (chat_id m) = None ->
   result o = Ok false /\ replies o = [diagnostica_admin]).
Proof.
  cbv zeta. unfold run. repeat split.
  - now rewrite is_admin_private.
  - now rewrite is_admin_private.
  - now rewrite (is_admin_group env m _ chat_admins).
  - rewrite (is_admin_group env m _ chat_admins) by assumption.
    eexists; split; [reflexivity|].
    rewrite existsb_exists. split.
    + intros (x & Hin & Hx). apply Z.eqb_eq in Hx. now subst.
    + intros Hin. exists (id (from_user m)). split; [assumption | apply Z.eqb_refl].
  - apply String.eqb_neq in H.
    unfold is_admin, the_message, try_except, get_chat_administrators, bind, ret,
      result. simpl. now rewrite H, H0.
  - apply String.eqb_neq in H.
    unfold is_admin, the_message, try_except, get_chat_administrators, bind, ret,
      replies. simpl. now rewrite H, H0.
Qed.

Lemma is_admin_policy_witness :
  (result (run (is_admin Esempio.env
             (mkUpdate (Some (Esempio.msg_privato Esempio.bob None)))) Esempio.db)
   = Ok true) /\
  (exists b, result (run (is_admin Esempio.env (Esempio.comando Esempio.capo))
                      Esempio.db) = Ok b /\
     (b = true <-> In 1 [1])) /\
  (result (run (is_admin Esempio.env_senza_admin (Esempio.comando Esempio.capo))
             Esempio.db) = Ok false).
Proof.
  split; [|split].
  - apply (proj1 (is_admin_policy Esempio.env
                    (Esempio.msg_privato Esempio.bob None) Esempio.db)).
    reflexivity.
  - apply (proj1 (proj2 (is_admin_policy Esempio.env
                    (Esempio.msg Esempio.capo None None) Esempio.db))
             [mkChatMember Esempio.capo]).
    + discriminate.
    + reflexivity.
  - apply (proj2 (proj2 (is_admin_policy Esempio.env_senza_admin
                    (Esempio.msg Esempio.capo None None) Esempio.db))).
    + discriminate.
    + reflexivity.
Defined.

(** ** The tag scanner *)

(** Unfolds the operations of the handler monad. *)
Ltac unfold_monad :=
  unfold run, result, replies, final_store, statements,
    try_finally, try_except, close_if_conn, close, commit, cursor, query,
    execute_select_reparto, execute_select_reparto_nome, execute_select_membri,
    execute_select_user_id, execute_insert_reparto, execute_insert_membro,
    execute_delete_membro, get_db_connection, assign_conn, assign_reparto_nome,
    read_conn, read_reparto_nome, reply_text, the_message, args_0, logger_error,
    get_chat_administrators,
    fetchone, fetchall, upd_sent, upd_txn, initial, bind, ret, raise in *.

Section Scanner.

Lemma primo_reparto_find (l : list string) (t : string) :
  primo_reparto l t = find (fun r => contains r t) l.
Proof.
  induction l as [|r l IH]; simpl; [reflexivity|].
  now destruct (contains r t).
Qed.

Lemma primo_reparto_first (pre post : list string) (r t : string) :
  contains r t = true ->
  (forall r', In r' pre -> contains r' t = false) ->
  primo_reparto (pre ++ r :: post) t = Some r.
Proof.
  intros Hr. induction pre as [|p pre IH]; simpl; intros Hpre.
  - now rewrite Hr.
  - rewrite (Hpre p) by now left. apply IH. intros r' Hin. apply Hpre. now right.
Qed.

Lemma primo_reparto_none (l : list string) (t : string) :
  existsb (fun r => contains r t) l = false -> primo_reparto l t = None.
Proof.
  induction l as [|r l IH]; simpl; [reflexivity|].
  destruct (contains r t); simpl; [discriminate | exact IH].
Qed.

Lemma primo_reparto_in (l : list string) (t r : string) :
  primo_reparto l t = Some r -> In r l /\ contains r t = true.
Proof.
  induction l as [|x l IH]; simpl; [discriminate|].
  destruct (contains x t) eqn:E.
  - intros [= <-]. now split; [left|].
  - intros H. destruct (IH H). now split; [right|].
Qed.

Lemma select_reparto_nome_validi (db : Store) (chat : Z) (r : string) :
  nomi_validi db = true ->
  In r (Sql.select_reparto_nome chat db) -> truthy r = true.
Proof.
  unfold nomi_validi, Sql.select_reparto_nome. intros Hv Hin.
  apply in_map_iff in Hin. destruct Hin as (row & <- & Hrow).
  apply filter_In in Hrow. destruct Hrow as [Hrow _].
  rewrite forallb_forall in Hv. apply startswith_truthy. now apply Hv.
Qed.

(** What a run of the scanner leaves behind when the database answers and the
    message has text. *)
Lemma gestore_messaggi_run (env : Env) (db : Store) (m : Message) (t : string) :
  db_reachable env = true -> text m = Some t -> truthy t = true ->
  run (gestore_messaggi env (mkUpdate (Some m))) db =
  match primo_reparto (Sql.select_reparto_nome (chat_id m) db) (lower t) with
  | None =>
      (Ok tt, mkSt db db [] [] [SELECT_reparti_nome (chat_id m)] Unbound Unbound)
  | Some r =>
      if truthy r then
        (Ok tt,
         mkSt db db
           match Sql.select_user_id (chat_id m) r db with
           | [] => []
           | ids => [chiamata r ids]
           end
           []
           [SELECT_reparti_nome (chat_id m); SELECT_membri_user_id (chat_id m) r]
           Unbound Unbound)
      else
        (Ok tt, mkSt db db [] [] [SELECT_reparti_nome (chat_id m)] Unbound Unbound)
  end.
Proof.
  intros Hdb Ht Htr. unfold gestore_messaggi. simpl. rewrite Ht, Htr. simpl.
  unfold_monad. rewrite Hdb. simpl.
  destruct (primo_reparto _ _) as [r|]; [|reflexivity].
  destruct (truthy r); [|reflexivity]. simpl.
  destruct (Sql.select_user_id (chat_id m) r db); reflexivity.
Qed.

End Scanner.

(** C10.  The scanner leaves the committed tables as they were, whatever the
    update and whatever the outside world does: it returns normally, and every
    statement it executes is a SELECT. *)
Theorem gestore_messaggi_read_only (env : Env) (db : Store) (upd : Update) :
  let o := run (gestore_messaggi env upd) db in
  final_store o = db /\
  result o = Ok tt /\
  forallb is_select (statements o) = true.
Proof.
  cbv zeta. unfold gestore_messaggi.
  destruct upd as [[m|]]; simpl; [|now unfold_monad].
  destruct (text m) as [t|]; [|now unfold_monad].
  destruct (truthy t); simpl; [|now unfold_monad].
  unfold_monad. destruct (db_reachable env); simpl; [|now repeat split].
  destruct (primo_reparto _ _) as [r|]; [|now repeat split].
  destruct (truthy r); [|now repeat split]. simpl.
  destruct (Sql.select_user_id (chat_id m) r db); now repeat split.
Qed.

(** C4, as worded, fails: "exactly one department is notified" does not
    hold when the first name that occurs has no member.  "@naval" is returned
    first and has no member, "@aero" has the member Ann, and both names occur
    in the text: the loop stops at "@naval" and nobody is called. *)
Lemma scanner_first_match_nessuna_chiamata :
  let db := mkStore [(100, "@naval"); (100, "@aero")]
                    [mkMembro 100 "@aero" 7 (Some "Ann")] in
  let t := "serve @aero e @naval" in
  nomi_validi db = true /\
  Sql.select_reparto_nome 100 db = ["@naval"; "@aero"] /\
  contains "@naval" (lower t) = true /\
  contains "@aero" (lower t) = true /\
  Sql.select_user_id 100 "@aero" db = [7] /\
  replies (run (gestore_messaggi Esempio.env (Esempio.testo t)) db) = [].
Proof. cbv zeta. repeat split; reflexivity. Qed.

(** C4, amended.  With the database reachable and the stored names valid, let
    [r] be the first name, in the order the storage returns the names of the
    chat, that occurs in the lower-cased text.  Then the loop selects [r], and
    the only member query is the one for [r]: names after [r] are not looked
    at, whether they occur in the text or not.  At most one reply is sent:
    none when [r] has no member, and otherwise the single Markdown reply
    "🔔 Chiamata per <r>:" followed, on the next line, by one invisible link
    [tg://user?id=<user_id>] per member of [r], separated by spaces. *)
Theorem scanner_first_match (env : Env) (db : Store) (m : Message) (t : string)
    (pre post : list string) (r : string) :
  db_reachable env = true ->
  nomi_validi db = true ->
  text m = Some t ->
  Sql.select_reparto_nome (chat_id m) db = (pre ++ r :: post)%list ->
  contains r (lower t) = true ->
  (forall r', In r' pre -> contains r' (lower t) = false) ->
  let o := run (gestore_messaggi env (mkUpdate (Some m))) db in
  let ids := Sql.select_user_id (chat_id m) r db in
  primo_reparto (pre ++ r :: post) (lower t) = Some r /\
  statements o =
    [SELECT_reparti_nome (chat_id m); SELECT_membri_user_id (chat_id m) r] /\
  (ids = [] -> replies o = []) /\
  (ids <> [] ->
   replies o =
   [mkReply
      ("🔔 Chiamata per " ++ r ++ ":" ++ nl
       ++ join " "
            (map (fun user_id =>
                    "[" ++ zwsp ++ "](tg://user?id=" ++ str_int user_id ++ ")")
                 ids))
      (Some "Markdown")]) /\
  (List.length (replies o) <= 1)%nat.
Proof.
  intros Hdb Hv Ht Hsel Hr Hpre. cbv zeta.
  assert (Hfirst : primo_reparto (pre ++ r :: post) (lower t) = Some r)
    by now apply primo_reparto_first.
  assert (Hrt : truthy r = true).
  { apply (select_reparto_nome_validi db (chat_id m)); [assumption|].
    rewrite Hsel. apply in_or_app. right. now left. }
  assert (Htt : truthy t = true).
  { destruct t; [|reflexivity]. destruct r; [discriminate Hrt | discriminate Hr]. }
  rewrite (gestore_messaggi_run env db m t Hdb Ht Htt), Hsel, Hfirst, Hrt.
  unfold statements, replies; cbn [snd sent executed]. repeat split.
  - now intros ->.
  - intros Hne. destruct (Sql.select_user_id (chat_id m) r db) as [|i ids];
      [now elim Hne | reflexivity].
  - destruct (Sql.select_user_id (chat_id m) r db); simpl; lia.
Qed.

Lemma scanner_first_match_witness :
  replies (run (gestore_messaggi Esempio.env
                  (Esempio.testo "serve @NAVAL e anche @Aero subito")) Esempio.db)
  = [mkReply ("🔔 Chiamata per @aero:" ++ nl ++ "[" ++ zwsp ++ "](tg://user?id=7)")
             (Some "Markdown")].
Proof.
  refine (proj1 (proj2 (proj2 (proj2
    (scanner_first_match Esempio.env Esempio.db
       (Esempio.msg Esempio.ann (Some "serve @NAVAL e anche @Aero subito") None)
       "serve @NAVAL e anche @Aero subito" [] ["@naval"] "@aero"
       eq_refl eq_refl eq_refl eq_refl eq_refl _)))) _).
  - intros r' [].
  - discriminate.
Defined.

(** C8.  The scanner sends nothing when no registered name occurs in the
    lower-cased text, and nothing when the first name that occurs has no
    member; and a reply it does send is a call with at least one member. *)
Theorem gestore_messaggi_no_reply (env : Env) (db : Store) (m : Message) (t : string) :
  text m = Some t ->
  let deps := Sql.select_reparto_nome (chat_id m) db in
  let o := run (gestore_messaggi env (mkUpdate (Some m))) db in
  (existsb (fun r => contains r (lower t)) deps = false -> replies o = []) /\
  (forall r, find (fun r => contains r (lower t)) deps = Some r ->
             Sql.select_user_id (chat_id m) r db = [] -> replies o = []) /\
  (forall reply, In reply (replies o) ->
     exists r ids, ids <> [] /\ reply = chiamata r ids).
Proof.
  intros Ht. cbv zeta.
  assert (Hnone : db_reachable env = false \/ truthy t = false ->
                  replies (run (gestore_messaggi env (mkUpdate (Some m))) db) = []).
  { unfold gestore_messaggi; simpl. rewrite Ht.
    destruct (truthy t); simpl; [|reflexivity].
    unfold_monad. intros [-> | ?]; [reflexivity | discriminate]. }
  destruct (db_reachable env) eqn:Hdb;
    [|rewrite Hnone by (now left); repeat split; intros; easy].
  destruct (truthy t) eqn:Htt;
    [|rewrite Hnone by (now right); repeat split; intros; easy].
  rewrite (gestore_messaggi_run env db m t Hdb Ht Htt). repeat split.
  - intros Hex. now rewrite primo_reparto_none.
  - intros r Hfind Hids. rewrite primo_reparto_find, Hfind.
    destruct (truthy r); unfold replies; simpl; [now rewrite Hids | reflexivity].
  - intros reply.
    destruct (primo_reparto _ _) as [r|]; [|intros []].
    destruct (truthy r); [|intros []].
    unfold replies; simpl.
    destruct (Sql.select_user_id (chat_id m) r db) as [|i ids] eqn:E; [intros []|].
    intros [<- | []]. exists r, (i :: ids). now split.
Qed.

Lemma gestore_messaggi_no_reply_witness :
  replies (run (gestore_messaggi Esempio.env (Esempio.testo "buongiorno a tutti"))
             Esempio.db) = [] /\
  replies (run (gestore_messaggi Esempio.env (Esempio.testo "chiamo @naval"))
             Esempio.db) = [].
Proof.
  split.
  - apply (proj1 (gestore_messaggi_no_reply Esempio.env Esempio.db
                    (Esempio.msg Esempio.ann (Some "buongiorno a tutti") None)
                    "buongiorno a tutti" eq_refl)).
    reflexivity.
  - apply (proj1 (proj2 (gestore_messaggi_no_reply Esempio.env Esempio.db
                    (Esempio.msg Esempio.ann (Some "chiamo @naval") None)
                    "chiamo @naval" eq_refl)) "@naval"); reflexivity.
Defined.

(** ** The tables under INSERT ... ON CONFLICT DO NOTHING *)

Section Tables.

Lemma reparto_key_eq (chat : Z) (nome : string) (r : RepartoRow) :
  Sql.reparto_key chat nome r = true <-> r = (chat, nome).
Proof.
  unfold Sql.reparto_key. destruct r as [c n]; simpl.
  rewrite andb_true_iff, Z.eqb_eq, String.eqb_eq. split.
  - now intros [-> ->].
  - now intros [= -> ->].
Qed.

Lemma existsb_reparto_key (chat : Z) (nome : string) (l : list RepartoRow) :
  existsb (Sql.reparto_key chat nome) l = true <-> In (chat, nome) l.
Proof.
  rewrite existsb_exists. split.
  - intros (r & Hin & Hk). apply reparto_key_eq in Hk. now subst.
  - intros Hin. exists (chat, nome). split; [assumption | now apply reparto_key_eq].
Qed.

Lemma filter_reparto_key_absent (chat : Z) (nome : string) (l : list RepartoRow) :
  ~ In (chat, nome) l -> filter (Sql.reparto_key chat nome) l = [].
Proof.
  induction l as [|r l IH]; simpl; intros Hn; [reflexivity|].
  destruct (Sql.reparto_key chat nome r) eqn:K.
  - apply reparto_key_eq in K. subst. elim Hn. now left.
  - apply IH. intros Hin. apply Hn. now right.
Qed.

(** Under the primary key, a stored pair is stored once. *)
Lemma filter_reparto_key_nodup (chat : Z) (nome : string) (l : list RepartoRow) :
  NoDup l -> In (chat, nome) l ->
  filter (Sql.reparto_key chat nome) l = [(chat, nome)].
Proof.
  induction 1 as [|r l Hr Hnd IH]; simpl; [intros []|].
  destruct (Sql.reparto_key chat nome r) eqn:K.
  - apply reparto_key_eq in K. subst r. intros _.
    now rewrite filter_reparto_key_absent.
  - intros [-> | Hin]; [|now apply IH].
    assert (Sql.reparto_key chat nome (chat, nome) = true) by now apply reparto_key_eq.
    congruence.
Qed.

Lemma insert_reparto_in (chat : Z) (nome : string) (s : Store) :
  In (chat, nome) (reparti (fst (Sql.insert_reparto chat nome s))).
Proof.
  unfold Sql.insert_reparto.
  destruct (existsb _ _) eqn:E; simpl.
  - now apply existsb_reparto_key.
  - apply in_or_app. right. now left.
Qed.

(** The second INSERT of the same pair inserts nothing. *)
Lemma insert_reparto_twice (chat : Z) (nome : string) (s : Store) :
  Sql.insert_reparto chat nome (fst (Sql.insert_reparto chat nome s)) =
  (fst (Sql.insert_reparto chat nome s), 0).
Proof.
  unfold Sql.insert_reparto at 1.
  now rewrite (proj2 (existsb_reparto_key chat nome _) (insert_reparto_in chat nome s)).
Qed.

Lemma insert_reparto_pk (chat : Z) (nome : string) (s : Store) :
  pk_reparti s -> pk_reparti (fst (Sql.insert_reparto chat nome s)).
Proof.
  unfold pk_reparti, Sql.insert_reparto. intros Hnd.
  destruct (existsb _ _) eqn:E; simpl; [assumption|].
  apply NoDup_app; [assumption | repeat constructor; intros [] |].
  intros r Hin [<- | []].
  apply existsb_reparto_key in Hin. congruence.
Qed.

(** [crea_reparto] keeps the stored names valid. *)
Lemma insert_reparto_validi (chat : Z) (nome : string) (s : Store) :
  startswith nome "@" = true -> nomi_validi s = true ->
  nomi_validi (fst (Sql.insert_reparto chat nome s)) = true.
Proof.
  unfold nomi_validi, Sql.insert_reparto. intros Hn Hv.
  destruct (existsb _ _); simpl; [assumption|].
  rewrite forallb_app. apply andb_true_iff. split; [exact Hv|].
  simpl. now rewrite Hn.
Qed.

End Tables.

(** ** The command handlers *)

Section Commands.

Variable env : Env.

Lemma bind_is_admin {A} (m : Message) (k : bool -> M A) (s : St) :
  autorizzato env m = true ->
  bind (is_admin env (mkUpdate (Some m))) k s = k true s.
Proof.
  intros H. unfold bind. now rewrite is_admin_autorizzato.
Qed.

(** A run of [crea_reparto] by an authorized sender with a valid name. *)
Lemma crea_reparto_run (db : Store) (m : Message) (a : string) (rest : list string) :
  autorizzato env m = true ->
  db_reachable env = true ->
  startswith (lower a) "@" = true ->
  run (crea_reparto env (mkUpdate (Some m)) (mkContext (Some (a :: rest)))) db =
  let db' := fst (Sql.insert_reparto (chat_id m) (lower a) db) in
  (Ok tt,
   mkSt db' db' [reparto_creato (lower a)] []
        [INSERT_reparti (chat_id m) (lower a)]
        (Bound (Some Connection)) (Bound (lower a))).
Proof.
  intros Ha Hdb Hn. unfold run, crea_reparto.
  rewrite bind_is_admin by assumption. simpl.
  unfold_monad. simpl. rewrite Hn, Hdb. simpl.
  now destruct (Sql.insert_reparto (chat_id m) (lower a) db).
Qed.

(** A run of [aggiungi_membro] on a department that is not stored. *)
Lemma aggiungi_membro_run_inesistente (db : Store) (m replied : Message)
    (a : string) (rest : list string) :
  autorizzato env m = true ->
  db_reachable env = true ->
  reply_to_message m = Some replied ->
  Sql.select_reparto (chat_id m) (lower a) db = [] ->
  run (aggiungi_membro env (mkUpdate (Some m)) (mkContext (Some (a :: rest)))) db =
  (Ok tt,
   mkSt db db [reparto_inesistente (lower a)] []
        [SELECT_reparti (chat_id m) (lower a)]
        (Bound (Some Connection)) Unbound).
Proof.
  intros Ha Hdb Hr Hsel. unfold run, aggiungi_membro.
  rewrite bind_is_admin by assumption. simpl.
  unfold_monad. simpl. rewrite Hr, Hdb. simpl. now rewrite Hsel.
Qed.

(** A run of [rimuovi_membro]: the reply does not depend on the number of
    rows the DELETE removed. *)
Lemma rimuovi_membro_run (db : Store) (m replied : Message)
    (a : string) (rest : list string) :
  autorizzato env m = true ->
  db_reachable env = true ->
  reply_to_message m = Some replied ->
  run (rimuovi_membro env (mkUpdate (Some m)) (mkContext (Some (a :: rest)))) db =
  let db' := fst (Sql.delete_membro (chat_id m) (lower a) (id (from_user replied)) db) in
  (Ok tt,
   mkSt db' db' [rimosso_da (from_user replied) (lower a)] []
        [DELETE_membri (chat_id m) (lower a) (id (from_user replied))]
        (Bound (Some Connection)) Unbound).
Proof.
  intros Ha Hdb Hr. unfold run, rimuovi_membro.
  rewrite bind_is_admin by assumption. simpl.
  unfold_monad. simpl. now rewrite Hr, Hdb.
Qed.

Lemma righe_membri_join (acc : string) (l : list (Z * option string)) :
  righe_membri acc l = acc ++ join "" (map riga_membro l).
Proof.
  revert acc; induction l as [|row l IH]; intros acc.
  - simpl. now rewrite append_nil_r.
  - change (righe_membri acc (row :: l))
      with (righe_membri (acc ++ riga_membro row) l).
    rewrite IH, append_assoc.
    change (map riga_membro (row :: l)) with (riga_membro row :: map riga_membro l).
    now rewrite join_empty_cons.
Qed.

End Commands.

(** C5.  An authorized sender creates the same department twice, with a name
    that starts with the tag marker, the database reachable and the primary
    key holding before: both runs return normally with the success reply, the
    second run leaves the tables as the first left them, and the table holds
    exactly one row for the pair (chat, lower-cased name). *)
Theorem crea_reparto_idempotent (env : Env) (db : Store) (m : Message)
    (a : string) (rest : list string) :
  autorizzato env m = true ->
  db_reachable env = true ->
  startswith (lower a) "@" = true ->
  pk_reparti db ->
  let cmd := crea_reparto env (mkUpdate (Some m)) (mkContext (Some (a :: rest))) in
  let o1 := run cmd db in
  let o2 := run cmd (final_store o1) in
  (result o1 = Ok tt /\ replies o1 = [reparto_creato (lower a)]) /\
  (result o2 = Ok tt /\ replies o2 = [reparto_creato (lower a)]) /\
  final_store o2 = final_store o1 /\
  righe_reparto (chat_id m) (lower a) (final_store o2) = 1%nat.
Proof.
  intros Ha Hdb Hn Hpk. cbv zeta.
  pose proof (crea_reparto_run env db m a rest Ha Hdb Hn) as E1.
  pose proof (crea_reparto_run env
                (fst (Sql.insert_reparto (chat_id m) (lower a) db))
                m a rest Ha Hdb Hn) as E2.
  cbv zeta in E1, E2. rewrite insert_reparto_twice in E2.
  unfold result, replies, final_store.
  rewrite E1. cbn [fst snd store sent]. rewrite E2. cbn [fst snd store sent].
  repeat split.
  unfold righe_reparto, Sql.select_reparto.
  rewrite (filter_reparto_key_nodup (chat_id m) (lower a));
    [reflexivity | | apply insert_reparto_in].
  now apply insert_reparto_pk.
Qed.

Lemma crea_reparto_idempotent_witness :
  righe_reparto 100 "@rov"
    (final_store
       (run (crea_reparto Esempio.env (Esempio.comando Esempio.capo)
               (mkContext (Some ["@ROV"])))
          (final_store
             (run (crea_reparto Esempio.env (Esempio.comando Esempio.capo)
                     (mkContext (Some ["@ROV"]))) Esempio.db)))) = 1%nat.
Proof.
  apply (crea_reparto_idempotent Esempio.env Esempio.db
           (Esempio.msg Esempio.capo None None) "@ROV" []); try reflexivity.
  unfold pk_reparti; simpl. repeat constructor; simpl; intuition congruence.
Defined.

(** C6.  An authorized sender answers a user's message with
    [/aggiungi_membro] and names a department that is not stored for the chat:
    the only reply is the one that says the department does not exist and asks
    to create it first, the run returns normally, the tables are unchanged and
    no statement other than the SELECT on [reparti] was executed. *)
Theorem aggiungi_membro_reparto_inesistente (env : Env) (db : Store)
    (m replied : Message) (a : string) (rest : list string) :
  autorizzato env m = true ->
  db_reachable env = true ->
  reply_to_message m = Some replied ->
  Sql.select_reparto (chat_id m) (lower a) db = [] ->
  let o := run (aggiungi_membro env (mkUpdate (Some m))
                  (mkContext (Some (a :: rest)))) db in
  result o = Ok tt /\
  replies o = [reparto_inesistente (lower a)] /\
  final_store o = db /\
  statements o = [SELECT_reparti (chat_id m) (lower a)].
Proof.
  intros Ha Hdb Hr Hsel. cbv zeta.
  rewrite (aggiungi_membro_run_inesistente env db m replied a rest Ha Hdb Hr Hsel).
  now repeat split.
Qed.

Lemma aggiungi_membro_reparto_inesistente_witness :
  let o := run (aggiungi_membro Esempio.env (Esempio.comando_su Esempio.bob)
                  (mkContext (Some ["@ROV"]))) Esempio.db in
  result o = Ok tt /\
  replies o = [reparto_inesistente "@rov"] /\
  final_store o = Esempio.db /\
  statements o = [SELECT_reparti 100 "@rov"].
Proof.
  apply (aggiungi_membro_reparto_inesistente Esempio.env Esempio.db
           (Esempio.msg Esempio.capo None
              (Some (Esempio.msg Esempio.bob (Some "ciao") None)))
           (Esempio.msg Esempio.bob (Some "ciao") None) "@ROV" []); reflexivity.
Defined.

(** C1.  [bob] is not a member of "@aero"; an administrator answers his
    message with [/rimuovi_membro @aero].  The DELETE removes no row and the
    tables stay as they were, and the reply is the one of a successful
    removal; the reply for a user that was not a member is not sent. *)
Theorem rimuovi_membro_non_membro :
  let o := run (rimuovi_membro Esempio.env (Esempio.comando_su Esempio.bob)
                  (mkContext (Some ["@aero"]))) Esempio.db in
  snd (Sql.delete_membro 100 "@aero" 8 Esempio.db) = 0 /\
  final_store o = Esempio.db /\
  result o = Ok tt /\
  replies o = [rimosso_da Esempio.bob "@aero"] /\
  rimosso_da Esempio.bob "@aero" <> non_era_in Esempio.bob "@aero".
Proof.
  cbv zeta. repeat split; try reflexivity. discriminate.
Qed.

(** C2.  [/lista_reparto] and [/crea_reparto] without an argument: the usage
    reply is sent, and then the [finally] clause reads the local variable
    [conn], which was never assigned, so the handler ends with
    [UnboundLocalError] instead of returning. *)
Theorem usage_reply_then_unbound_conn :
  let o1 := run (lista_reparto Esempio.env (Esempio.comando Esempio.bob)
                   (mkContext (Some []))) Esempio.db in
  let o2 := run (crea_reparto Esempio.env (Esempio.comando Esempio.capo)
                   (mkContext (Some []))) Esempio.db in
  (replies o1 = [mkReply "Uso: /lista_reparto @nome_reparto" None] /\
   result o1 = Raised UnboundLocalError) /\
  (replies o2 = [mkReply "Uso: /crea_reparto @nome_reparto" None] /\
   result o2 = Raised UnboundLocalError).
Proof. cbv zeta. repeat split; reflexivity. Qed.

(** ** The stored names stay valid *)

Section Invariant.

Variable env : Env.

(** [is_admin] touches nothing but the replies and the log. *)
Lemma is_admin_frame (upd : Update) (s : St) :
  exists r out log,
    is_admin env upd s =
    (r, mkSt (store s) (txn s) out log (executed s) (var_conn s) (var_reparto_nome s)).
Proof.
  unfold is_admin, get_chat_administrators. destruct s. destruct upd as [[m|]];
    unfold_monad; simpl.
  - destruct (String.eqb (chat_type m) "private"); [now eexists _, _, _|].
    destruct (chat_administrators env (chat_id m)); now eexists _, _, _.
  - now eexists _, _, _.
Qed.

(** Starts the analysis of a command handler that first asks [is_admin]. *)
Ltac after_is_admin upd db :=
  unfold run; unfold bind at 1;
  destruct (is_admin_frame upd (initial db)) as (r & out & log & ->);
  destruct r as [[|]|e]; simpl; [| |reflexivity].

(** [crea_reparto] is the only handler that writes to [reparti], and it
    writes a name that passed its [startswith('@')] test. *)
Lemma crea_reparto_nomi_validi (db : Store) (upd : Update) (ctx : Context) :
  nomi_validi db = true ->
  nomi_validi (final_store (run (crea_reparto env upd ctx) db)) = true.
Proof.
  intros Hv. unfold crea_reparto, final_store.
  unfold run; unfold bind at 1.
  destruct (is_admin_frame upd (initial db)) as (r & out & log & ->).
  destruct r as [[|]|e]; simpl; [| |assumption];
    destruct upd as [[m|]]; destruct ctx as [[[|a rest]|]]; unfold_monad; simpl;
    try assumption.
  1: destruct (startswith (lower a) "@") eqn:Hn; simpl; [|assumption].
  1: destruct (db_reachable env); simpl; [|assumption].
  1: destruct (Sql.insert_reparto (chat_id m) (lower a) db) as [t n] eqn:E; simpl.
  - change t with (fst (t, n)). rewrite <- E. now apply insert_reparto_validi.
  - destruct (startswith (lower a) "@"); simpl; assumption.
Qed.

Lemma aggiungi_membro_reparti (db : Store) (upd : Update) (ctx : Context) :
  reparti (final_store (run (aggiungi_membro env upd ctx) db)) = reparti db.
Proof.
  unfold aggiungi_membro, final_store.
  after_is_admin upd db;
    destruct upd as [[m|]]; destruct ctx as [[[|a rest]|]]; unfold_monad; simpl;
    try reflexivity;
    destruct (reply_to_message m); simpl; try reflexivity.
  destruct (db_reachable env); simpl; [|reflexivity].
  destruct (Sql.select_reparto (chat_id m) (lower a) db); simpl; [reflexivity|].
  unfold Sql.insert_membro.
  destruct (existsb (Sql.membro_key _ _ _) _); simpl; [reflexivity|].
  destruct (existsb (Sql.reparto_key _ _) _); reflexivity.
Qed.

Lemma rimuovi_membro_reparti (db : Store) (upd : Update) (ctx : Context) :
  reparti (final_store (run (rimuovi_membro env upd ctx) db)) = reparti db.
Proof.
  unfold rimuovi_membro, final_store.
  after_is_admin upd db;
    destruct upd as [[m|]]; destruct ctx as [[[|a rest]|]]; unfold_monad; simpl;
    try reflexivity;
    destruct (reply_to_message m); simpl; try reflexivity.
  destruct (db_reachable env); reflexivity.
Qed.

Lemma lista_reparto_store (db : Store) (upd : Update) (ctx : Context) :
  final_store (run (lista_reparto env upd ctx) db) = db.
Proof.
  unfold lista_reparto, final_store.
  destruct upd as [[m|]]; destruct ctx as [[[|a rest]|]]; unfold_monad; simpl;
    try reflexivity.
  all: destruct (db_reachable env); simpl; try reflexivity.
  all: destruct (Sql.select_membri (chat_id m) (lower a) db); reflexivity.
Qed.

End Invariant.

(** ** The member list *)

(** A run of [lista_reparto] with an argument, the database reachable. *)
Lemma lista_reparto_run (env : Env) (db : Store) (m : Message)
    (a : string) (rest : list string) :
  db_reachable env = true ->
  run (lista_reparto env (mkUpdate (Some m)) (mkContext (Some (a :: rest)))) db =
  (Ok tt,
   mkSt db db
     [match Sql.select_membri (chat_id m) (lower a) db with
      | [] => mkReply ("Nessun membro trovato per il reparto " ++ lower a ++ ".") None
      | membri =>
          mkReply (righe_membri ("Membri del reparto " ++ lower a ++ ":" ++ nl) membri)
                  None
      end]
     [] [SELECT_membri (chat_id m) (lower a)] (Bound (Some Connection)) Unbound).
Proof.
  intros Hdb. unfold lista_reparto. unfold_monad. simpl. rewrite Hdb. simpl.
  now destruct (Sql.select_membri (chat_id m) (lower a) db).
Qed.

(** C3, as worded, fails: "@aero" has the single member Ann (7), and the reply
    of [/lista_reparto @aero] is the header followed by the line
    "- Ann ([ID: 7])"; the line "- Ann (ID: 7)" occurs nowhere in it. *)
Lemma lista_reparto_riga_non_spec :
  let o := run (lista_reparto Esempio.env (Esempio.comando Esempio.bob)
                  (mkContext (Some ["@aero"]))) Esempio.db in
  Sql.select_membri 100 "@aero" Esempio.db = [(7, Some "Ann")] /\
  riga_spec (7, Some "Ann") = "- Ann (ID: 7)" /\
  map body (replies o) =
    ["Membri del reparto @aero:" ++ nl ++ "- Ann ([ID: 7])" ++ nl] /\
  existsb (contains (riga_spec (7, Some "Ann"))) (map body (replies o)) = false.
Proof. cbv zeta. repeat split; reflexivity. Qed.

(** C3, amended.  With the database reachable and at least one member stored
    for the department, [/lista_reparto] returns normally and sends one reply:
    the header line "Membri del reparto <name>:" and then, for each member in
    the order the storage returns them, the line
    "- <user_name> ([ID: <user_id>])", each line ended by a newline. *)
Theorem lista_reparto_righe (env : Env) (db : Store) (m : Message)
    (a : string) (rest : list string) :
  db_reachable env = true ->
  Sql.select_membri (chat_id m) (lower a) db <> [] ->
  let membri := Sql.select_membri (chat_id m) (lower a) db in
  let o := run (lista_reparto env (mkUpdate (Some m))
                  (mkContext (Some (a :: rest)))) db in
  result o = Ok tt /\
  replies o =
    [mkReply
       (("Membri del reparto " ++ lower a ++ ":" ++ nl)
        ++ join ""
             (map (fun row =>
                     "- " ++ str_opt (snd row) ++ " ([ID: " ++ str_int (fst row)
                     ++ "])" ++ nl) membri))
       None] /\
  List.length
    (map (fun row =>
            "- " ++ str_opt (snd row) ++ " ([ID: " ++ str_int (fst row)
            ++ "])" ++ nl) membri) = List.length membri.
Proof.
  intros Hdb Hne. cbv zeta.
  rewrite (lista_reparto_run env db m a rest Hdb).
  destruct (Sql.select_membri (chat_id m) (lower a) db) as [|row l] eqn:E;
    [now elim Hne|].
  unfold result, replies; cbn [fst snd sent].
  repeat split; [|now rewrite length_map].
  do 2 f_equal. rewrite righe_membri_join. f_equal. f_equal.
  apply map_ext. now intros [uid uname].
Qed.

Lemma lista_reparto_righe_witness :
  replies (run (lista_reparto Esempio.env (Esempio.comando Esempio.bob)
                  (mkContext (Some ["@AERO"]))) Esempio.db) =
  [mkReply ("Membri del reparto @aero:" ++ nl ++ "- Ann ([ID: 7])" ++ nl) None].
Proof.
  apply (lista_reparto_righe Esempio.env Esempio.db
           (Esempio.msg Esempio.bob None None) "@AERO" []).
  - reflexivity.
  - discriminate.
Defined.

(** ** Letter case *)

(** At [lw := lower] the handlers over a lower-casing function are the
    handlers of the rest of this file. *)
Lemma handlers_con_lower :
  gestore_messaggi_con lower = gestore_messaggi /\
  crea_reparto_con lower = crea_reparto.
Proof. split; reflexivity. Qed.

(** [lower] has the three properties of [str.lower] used below. *)
Lemma lower_ascii_segment (pre u post : string) :
  is_ascii u = true ->
  exists a b, lower (pre ++ u ++ post) = a ++ lower u ++ b.
Proof.
  intros _. exists (lower pre), (lower post). now rewrite !lower_app.
Qed.

Section LetterCase.

(** The lower-casing function of the strings, [str.lower], known here only by
    three of its properties: lower-casing twice is lower-casing once; only the
    empty string becomes the empty string; and a run of ASCII characters
    becomes, wherever it stands in a text, its ASCII lower-casing (whatever
    happens to the characters around it). *)
Variable lw : string -> string.
Hypothesis lw_idem : forall s, lw (lw s) = lw s.
Hypothesis lw_truthy : forall s, truthy (lw s) = truthy s.
Hypothesis lw_ascii :
  forall pre u post, is_ascii u = true ->
    exists a b, lw (pre ++ u ++ post) = a ++ lower u ++ b.

Lemma crea_reparto_con_run (env : Env) (db : Store) (m : Message)
    (a : string) (rest : list string) :
  autorizzato env m = true ->
  db_reachable env = true ->
  startswith (lw a) "@" = true ->
  run (crea_reparto_con lw env (mkUpdate (Some m)) (mkContext (Some (a :: rest)))) db =
  let db' := fst (Sql.insert_reparto (chat_id m) (lw a) db) in
  (Ok tt,
   mkSt db' db' [reparto_creato (lw a)] []
        [INSERT_reparti (chat_id m) (lw a)]
        (Bound (Some Connection)) (Bound (lw a))).
Proof.
  intros Ha Hdb Hn. unfold run, crea_reparto_con.
  rewrite bind_is_admin by assumption. simpl.
  unfold_monad. simpl. rewrite Hn, Hdb. simpl.
  now destruct (Sql.insert_reparto (chat_id m) (lw a) db).
Qed.


End LetterCase.


(** The bot's own round trip: an administrator creates "@Rov" and adds [bob];
    the name is stored in lower case, and a later message that names "@ROV"
    calls [bob]. *)
Example crea_aggiungi_chiama :
  let db1 := final_store (run (crea_reparto Esempio.env (Esempio.comando Esempio.capo)
                                 (mkContext (Some ["@Rov"]))) Esempio.db) in
  let db2 := final_store (run (aggiungi_membro Esempio.env
                                 (Esempio.comando_su Esempio.bob)
                                 (mkContext (Some ["@ROV"]))) db1) in
  Sql.select_reparto_nome 100 db2 = ["@aero"; "@naval"; "@rov"] /\
  replies (run (gestore_messaggi Esempio.env (Esempio.testo "Serve @ROV subito")) db2)
  = [chiamata "@rov" [8]].
Proof. cbv zeta. split; reflexivity. Qed.

(** Without an argument [lista_reparto] never returns normally, whatever the
    tables and the outside world. *)
Lemma lista_reparto_senza_argomento (env : Env) (db : Store) (m : Message) :
  let o := run (lista_reparto env (mkUpdate (Some m)) (mkContext (Some []))) db in
  result o = Raised UnboundLocalError /\
  replies o = [mkReply "Uso: /lista_reparto @nome_reparto" None] /\
  final_store o = db.
Proof. cbv zeta. now repeat split. Qed.

(** In [rimuovi_membro] the reply for a user that was not a member is never
    sent when the command reaches the DELETE. *)
Lemma rimuovi_membro_mai_non_era (env : Env) (db : Store) (m replied : Message)
    (a : string) (rest : list string) :
  autorizzato env m = true ->
  db_reachable env = true ->
  reply_to_message m = Some replied ->
  replies (run (rimuovi_membro env (mkUpdate (Some m))
                  (mkContext (Some (a :: rest)))) db) =
  [rimosso_da (from_user replied) (lower a)].
Proof.
  intros Ha Hdb Hr. now rewrite (rimuovi_membro_run env db m replied a rest).
Qed.

(** Why the stored names are asked to be valid in [scanner_first_match]: a row
    with the empty name, which no command can insert, is found by the loop in
    every text, and then fails the test [if reparto_da_taggare:], so nothing
    is sent and the names after it are never looked at. *)
Example nome_vuoto_ferma_la_scansione :
  let db := mkStore [(100, ""); (100, "@aero")]
                    [mkMembro 100 "@aero" 7 (Some "Ann")] in
  nomi_validi db = false /\
  primo_reparto (Sql.select_reparto_nome 100 db) (lower "serve @aero") = Some "" /\
  replies (run (gestore_messaggi Esempio.env (Esempio.testo "serve @aero")) db) = [].
Proof. cbv zeta. repeat split; reflexivity. Qed.

(** ** What a handler can do to the tables *)

Section Effetti.

Variable env : Env.

(** Exposes the answer of [is_admin] in the equation [E] of the tables after
    the run of a command handler. *)
Ltac expose_is_admin E upd db :=
  unfold final_store, run in E; unfold bind at 1 in E;
  let r := fresh "r" in
  let out := fresh "out" in
  let log := fresh "log" in
  let Eadm := fresh "Eadm" in
  destruct (is_admin_frame env upd (initial db)) as (r & out & log & Eadm);
  rewrite Eadm in E; clear Eadm;
  destruct r as [[|]|?]; simpl in E; [| |now left].

(** Every run of [crea_reparto] either leaves the tables as they were or
    inserts the lower-cased argument, which starts with the tag marker, for
    the chat of the command. *)
Lemma crea_reparto_effetto (db : Store) (upd : Update) (ctx : Context) :
  let o := run (crea_reparto env upd ctx) db in
  final_store o = db \/
  exists m a rest,
    message upd = Some m /\ args ctx = Some (a :: rest) /\
    startswith (lower a) "@" = true /\
    final_store o = fst (Sql.insert_reparto (chat_id m) (lower a) db).
Proof.
  cbv zeta. remember (final_store (run (crea_reparto env upd ctx) db)) as fs eqn:E.
  unfold crea_reparto in E. expose_is_admin E upd db;
    destruct upd as [[m|]]; destruct ctx as [[[|a rest]|]];
    unfold_monad; simpl in E; try (now left).
  - destruct (startswith (lower a) "@") eqn:Hn; simpl in E; [|now left].
    destruct (db_reachable env); simpl in E; [|now left].
    right. exists m, a, rest. repeat split; try assumption.
    subst fs. now destruct (Sql.insert_reparto (chat_id m) (lower a) db).
  - destruct (startswith (lower a) "@"); simpl in E; now left.
Qed.

Lemma aggiungi_membro_effetto (db : Store) (upd : Update) (ctx : Context) :
  let o := run (aggiungi_membro env upd ctx) db in
  final_store o = db \/
  exists m replied a rest k,
    message upd = Some m /\ reply_to_message m = Some replied /\
    args ctx = Some (a :: rest) /\
    Sql.insert_membro (chat_id m) (lower a) (id (from_user replied))
      (Some (full_name (from_user replied))) db = Some (final_store o, k).
Proof.
  cbv zeta. remember (final_store (run (aggiungi_membro env upd ctx) db)) as fs eqn:E.
  unfold aggiungi_membro in E. expose_is_admin E upd db;
    destruct upd as [[m|]]; destruct ctx as [[[|a rest]|]];
    unfold_monad; simpl in E; try (now left);
    destruct (reply_to_message m) as [replied|] eqn:Hr; simpl in E; try (now left).
  destruct (db_reachable env); simpl in E; [|now left].
  destruct (Sql.select_reparto (chat_id m) (lower a) db); simpl in E; [now left|].
  destruct (Sql.insert_membro (chat_id m) (lower a) (id (from_user replied))
              (Some (full_name (from_user replied))) db) as [[t k]|] eqn:Ei;
    simpl in E; [|now left].
  right. exists m, replied, a, rest, k. subst fs. now repeat split.
Qed.

Lemma rimuovi_membro_effetto (db : Store) (upd : Update) (ctx : Context) :
  let o := run (rimuovi_membro env upd ctx) db in
  final_store o = db \/
  exists m replied a rest,
    message upd = Some m /\ reply_to_message m = Some replied /\
    args ctx = Some (a :: rest) /\
    final_store o =
    fst (Sql.delete_membro (chat_id m) (lower a) (id (from_user replied)) db).
Proof.
  cbv zeta. remember (final_store (run (rimuovi_membro env upd ctx) db)) as fs eqn:E.
  unfold rimuovi_membro in E. expose_is_admin E upd db;
    destruct upd as [[m|]]; destruct ctx as [[[|a rest]|]];
    unfold_monad; simpl in E; try (now left);
    destruct (reply_to_message m) as [replied|] eqn:Hr; simpl in E; try (now left).
  destruct (db_reachable env); simpl in E; [|now left].
  right. exists m, replied, a, rest. subst fs. now repeat split.
Qed.

Lemma lista_reparto_effetto (db : Store) (upd : Update) (ctx : Context) :
  final_store (run (lista_reparto env upd ctx) db) = db.
Proof.
  unfold lista_reparto, final_store.
  destruct upd as [[m|]]; destruct ctx as [[[|a rest]|]]; unfold_monad; simpl;
    try reflexivity.
  all: destruct (db_reachable env); simpl; try reflexivity.
  all: destruct (Sql.select_membri (chat_id m) (lower a) db); reflexivity.
Qed.

Lemma gestore_messaggi_effetto (db : Store) (upd : Update) :
  final_store (run (gestore_messaggi env upd) db) = db.
Proof.
  unfold gestore_messaggi, final_store.
  destruct upd as [[m|]]; simpl; [|reflexivity].
  destruct (text m) as [t|]; [|reflexivity].
  destruct (truthy t); simpl; [|reflexivity].
  unfold_monad. destruct (db_reachable env); simpl; [|reflexivity].
  destruct (primo_reparto _ _) as [r|]; [|reflexivity].
  destruct (truthy r); [|reflexivity]. simpl.
  destruct (Sql.select_user_id (chat_id m) r db); reflexivity.
Qed.

End Effetti.

(** ** Integrity is kept by the statements *)

Section Integrita.

Lemma membro_key_pk (chat : Z) (nome : string) (uid : Z) (r : MembroRow) :
  Sql.membro_key chat nome uid r = true <-> membro_pk r = (chat, nome, uid).
Proof.
  unfold Sql.membro_key, Sql.membro_in, membro_pk.
  rewrite !andb_true_iff, !Z.eqb_eq, String.eqb_eq. split.
  - now intros [[-> ->] ->].
  - now intros [= -> -> ->].
Qed.

Lemma existsb_membro_key (chat : Z) (nome : string) (uid : Z) (l : list MembroRow) :
  existsb (Sql.membro_key chat nome uid) l = true <->
  In (chat, nome, uid) (map membro_pk l).
Proof.
  rewrite existsb_exists, in_map_iff. split.
  - intros (r & Hin & Hk). exists r. split; [now apply membro_key_pk | assumption].
  - intros (r & Hk & Hin). exists r. split; [assumption | now apply membro_key_pk].
Qed.

Lemma existsb_filter_nonempty {A} (f : A -> bool) (l : list A) :
  filter f l <> [] <-> existsb f l = true.
Proof.
  induction l as [|x l IH]; simpl.
  - split; [now intros H | discriminate].
  - destruct (f x); simpl; [|exact IH]. split; [reflexivity | discriminate].
Qed.

Lemma NoDup_map_filter {A B} (g : A -> B) (f : A -> bool) (l : list A) :
  NoDup (map g l) -> NoDup (map g (filter f l)).
Proof.
  induction l as [|x l IH]; simpl; intros H; [constructor|].
  inversion H as [|? ? Hx Hl]; subst.
  destruct (f x); simpl; [|now apply IH].
  constructor; [|now apply IH].
  intros Hin. apply Hx. apply in_map_iff in Hin. destruct Hin as (y & <- & Hy).
  apply in_map. apply filter_In in Hy. tauto.
Qed.

Lemma forallb_filter_keep {A} (p f : A -> bool) (l : list A) :
  forallb p l = true -> forallb p (filter f l) = true.
Proof.
  rewrite !forallb_forall. intros H x Hx. apply H. apply filter_In in Hx. tauto.
Qed.

Lemma insert_reparto_membri (chat : Z) (nome : string) (s : Store) :
  membri (fst (Sql.insert_reparto chat nome s)) = membri s.
Proof. unfold Sql.insert_reparto. now destruct (existsb _ _). Qed.

Lemma insert_reparto_keeps (chat : Z) (nome : string) (s : Store) (r : RepartoRow) :
  In r (reparti s) -> In r (reparti (fst (Sql.insert_reparto chat nome s))).
Proof.
  unfold Sql.insert_reparto. destruct (existsb _ _); simpl; [easy|].
  intros H. apply in_or_app. now left.
Qed.

Lemma insert_reparto_integro (chat : Z) (nome : string) (s : Store) :
  startswith nome "@" = true -> integro s ->
  integro (fst (Sql.insert_reparto chat nome s)).
Proof.
  intros Hn (Hpk & Hpm & Hfk & Hv). repeat split.
  - now apply insert_reparto_pk.
  - unfold pk_membri. now rewrite insert_reparto_membri.
  - unfold fk_membri in *. rewrite insert_reparto_membri.
    rewrite forallb_forall in *. intros r Hr. specialize (Hfk r Hr).
    apply existsb_reparto_key. apply insert_reparto_keeps.
    now apply existsb_reparto_key.
  - now apply insert_reparto_validi.
Qed.

Lemma insert_membro_integro (chat : Z) (nome : string) (uid : Z)
    (uname : option string) (s t : Store) (k : Z) :
  Sql.insert_membro chat nome uid uname s = Some (t, k) ->
  integro s -> integro t.
Proof.
  unfold Sql.insert_membro. intros H (Hpk & Hpm & Hfk & Hv).
  destruct (existsb (Sql.membro_key chat nome uid) (membri s)) eqn:Ek.
  - injection H as <- _. now repeat split.
  - destruct (existsb (Sql.reparto_key chat nome) (reparti s)) eqn:Er;
      [|discriminate].
    injection H as <- _. repeat split; try assumption.
    + unfold pk_membri in *. simpl. rewrite map_app. simpl.
      apply NoDup_app; [assumption | repeat constructor; intros [] |].
      intros x Hin [Ex | []]. subst x.
      apply existsb_membro_key in Hin. simpl in Hin. congruence.
    + unfold fk_membri in *. simpl. rewrite forallb_app, Hfk. simpl.
      now rewrite Er.
Qed.

Lemma delete_membro_integro (chat : Z) (nome : string) (uid : Z) (s : Store) :
  integro s -> integro (fst (Sql.delete_membro chat nome uid s)).
Proof.
  intros (Hpk & Hpm & Hfk & Hv). unfold Sql.delete_membro. repeat split;
    try assumption.
  - unfold pk_membri in *. simpl. now apply NoDup_map_filter.
  - unfold fk_membri in *. simpl. now apply forallb_filter_keep.
Qed.

(** One update keeps the tables integral, whatever the update and whatever
    the outside world answers. *)
Lemma passo_integro (db : Store) (e : Env * Evento) :
  integro db -> integro (passo db e).
Proof.
  intros Hi. destruct e as [env [nome upd ctx | upd]]; unfold passo, gestore; simpl.
  - destruct (String.eqb nome "crea_reparto").
    { destruct (crea_reparto_effetto env db upd ctx)
        as [-> | (m & a & rest & _ & _ & Hn & ->)]; [assumption|].
      now apply insert_reparto_integro. }
    destruct (String.eqb nome "aggiungi_membro").
    { destruct (aggiungi_membro_effetto env db upd ctx)
        as [-> | (m & replied & a & rest & k & _ & _ & _ & Hins)]; [assumption|].
      now apply (insert_membro_integro _ _ _ _ _ _ _ Hins). }
    destruct (String.eqb nome "rimuovi_membro").
    { destruct (rimuovi_membro_effetto env db upd ctx)
        as [-> | (m & replied & a & rest & _ & _ & _ & ->)]; [assumption|].
      now apply delete_membro_integro. }
    destruct (String.eqb nome "lista_reparto").
    { now rewrite lista_reparto_effetto. }
    assumption.
  - now rewrite gestore_messaggi_effetto.
Qed.

End Integrita.

(** ** Properties of sequences of updates *)

Lemma integro_esempio : integro Esempio.db.
Proof.
  repeat split; try reflexivity.
  - unfold pk_reparti; simpl. repeat constructor; simpl; intuition congruence.
  - unfold pk_membri; simpl. repeat constructor; simpl; intuition.
Qed.

(** X1.  Whatever updates arrive and whatever the outside world answers to
    each, tables that respect the two primary keys, the foreign key of
    [membri] and the tag marker of the names still do after the handlers
    registered in [main] have run on them. *)
Theorem esegui_integro (db : Store) (evs : list (Env * Evento)) :
  integro db -> integro (esegui db evs).
Proof.
  unfold esegui. revert db. induction evs as [|e evs IH]; intros db Hi; simpl.
  - assumption.
  - apply IH. now apply passo_integro.
Qed.

Lemma esegui_integro_witness :
  integro
    (esegui Esempio.db
       [(Esempio.env, Comando "crea_reparto" (Esempio.comando Esempio.capo)
                        (mkContext (Some ["@Rov"])));
        (Esempio.env, Comando "aggiungi_membro" (Esempio.comando_su Esempio.bob)
                        (mkContext (Some ["@rov"])));
        (Esempio.env, Testo (Esempio.testo "serve @rov"));
        (Esempio.env, Comando "rimuovi_membro" (Esempio.comando_su Esempio.ann)
                        (mkContext (Some ["@aero"])))]).
Proof. apply esegui_integro. exact integro_esempio. Defined.

Section AltreChat.

Lemma filter_app_nil {A} (f : A -> bool) (l : list A) (x : A) :
  f x = false -> filter f (l ++ [x]) = filter f l.
Proof. intros H. rewrite filter_app. simpl. rewrite H. apply app_nil_r. Qed.

Lemma filter_filter_implied {A} (f g : A -> bool) (l : list A) :
  (forall x, f x = true -> g x = true) ->
  filter f (filter g l) = filter f l.
Proof.
  intros H. induction l as [|x l IH]; simpl; [reflexivity|].
  destruct (g x) eqn:G; simpl.
  - now rewrite IH.
  - destruct (f x) eqn:F; [|exact IH]. rewrite (H x F) in G. discriminate.
Qed.

Lemma insert_reparto_altre_chat (chat : Z) (nome : string) (s : Store) :
  altre_chat chat (fst (Sql.insert_reparto chat nome s)) = altre_chat chat s.
Proof.
  unfold Sql.insert_reparto, altre_chat.
  destruct (existsb _ _); simpl; [reflexivity|].
  rewrite filter_app_nil; [reflexivity|]. simpl. now rewrite Z.eqb_refl.
Qed.

Lemma insert_membro_altre_chat (chat : Z) (nome : string) (uid : Z)
    (uname : option string) (s t : Store) (k : Z) :
  Sql.insert_membro chat nome uid uname s = Some (t, k) ->
  altre_chat chat t = altre_chat chat s.
Proof.
  unfold Sql.insert_membro, altre_chat. intros H.
  destruct (existsb (Sql.membro_key _ _ _) _); [now injection H as <- _|].
  destruct (existsb (Sql.reparto_key _ _) _); [|discriminate].
  injection H as <- _. simpl.
  rewrite filter_app_nil; [reflexivity|]. simpl. now rewrite Z.eqb_refl.
Qed.

Lemma delete_membro_altre_chat (chat : Z) (nome : string) (uid : Z) (s : Store) :
  altre_chat chat (fst (Sql.delete_membro chat nome uid s)) = altre_chat chat s.
Proof.
  unfold Sql.delete_membro, altre_chat. simpl. f_equal.
  apply filter_filter_implied. intros r Hr.
  unfold Sql.membro_key, Sql.membro_in.
  destruct (m_chat_id r =? chat); [discriminate | reflexivity].
Qed.

End AltreChat.

(** X2.  An update of one chat changes no row of another chat: after any
    registered handler has run on an update whose message belongs to chat
    [chat_id m], the rows of [reparti] and [membri] with a different chat
    identifier are the ones that were there before, in the same order. *)
Theorem passo_altre_chat (db : Store) (env : Env) (ev : Evento) (m : Message) :
  message (aggiornamento ev) = Some m ->
  altre_chat (chat_id m) (passo db (env, ev)) = altre_chat (chat_id m) db.
Proof.
  intros Hm. destruct ev as [nome upd ctx | upd]; unfold passo, gestore; simpl in *.
  - destruct (String.eqb nome "crea_reparto").
    { destruct (crea_reparto_effetto env db upd ctx)
        as [-> | (m' & a & rest & Hm' & _ & _ & ->)]; [reflexivity|].
      rewrite Hm in Hm'. injection Hm' as <-. apply insert_reparto_altre_chat. }
    destruct (String.eqb nome "aggiungi_membro").
    { destruct (aggiungi_membro_effetto env db upd ctx)
        as [-> | (m' & replied & a & rest & k & Hm' & _ & _ & Hins)]; [reflexivity|].
      rewrite Hm in Hm'. injection Hm' as <-.
      now apply (insert_membro_altre_chat _ _ _ _ _ _ _ Hins). }
    destruct (String.eqb nome "rimuovi_membro").
    { destruct (rimuovi_membro_effetto env db upd ctx)
        as [-> | (m' & replied & a & rest & Hm' & _ & _ & ->)]; [reflexivity|].
      rewrite Hm in Hm'. injection Hm' as <-. apply delete_membro_altre_chat. }
    destruct (String.eqb nome "lista_reparto").
    { now rewrite lista_reparto_effetto. }
    reflexivity.
  - now rewrite gestore_messaggi_effetto.
Qed.

Lemma passo_altre_chat_witness :
  altre_chat 55
    (passo (mkStore [(100, "@aero"); (55, "@aero")]
                    [mkMembro 100 "@aero" 7 (Some "Ann")])
       (Esempio.env,
        Comando "crea_reparto"
          (mkUpdate (Some (Esempio.msg_privato Esempio.bob None)))
          (mkContext (Some ["@naval"]))))
  = mkStore [(100, "@aero")] [mkMembro 100 "@aero" 7 (Some "Ann")].
Proof.
  apply (passo_altre_chat
           (mkStore [(100, "@aero"); (55, "@aero")]
                    [mkMembro 100 "@aero" 7 (Some "Ann")])
           Esempio.env
           (Comando "crea_reparto"
              (mkUpdate (Some (Esempio.msg_privato Esempio.bob None)))
              (mkContext (Some ["@naval"])))
           (Esempio.msg_privato Esempio.bob None)).
  reflexivity.
Defined.

(** ** Adding and removing members *)

Section Membri.

Variable env : Env.

Lemma existsb_membro_key_user_id (chat : Z) (nome : string) (uid : Z)
    (l : list MembroRow) :
  existsb (Sql.membro_key chat nome uid) l = true <->
  In uid (map m_user_id (filter (Sql.membro_in chat nome) l)).
Proof.
  rewrite existsb_exists, in_map_iff. unfold Sql.membro_key. split.
  - intros (r & Hin & Hk). apply andb_true_iff in Hk. destruct Hk as [Hi Hu].
    exists r. split; [now apply Z.eqb_eq | now apply filter_In].
  - intros (r & Hu & Hin). apply filter_In in Hin. destruct Hin as [Hin Hi].
    exists r. split; [assumption|]. rewrite Hi. now apply Z.eqb_eq.
Qed.

Lemma filter_negb_absent {A} (f : A -> bool) (l : list A) :
  existsb f l = false -> filter (fun x => negb (f x)) l = l.
Proof.
  induction l as [|x l IH]; simpl; [reflexivity|].
  destruct (f x); simpl; [discriminate|]. intros H. now rewrite IH.
Qed.

Lemma membro_key_refl (chat : Z) (nome : string) (uid : Z) (uname : option string) :
  Sql.membro_key chat nome uid (mkMembro chat nome uid uname) = true.
Proof. now apply membro_key_pk. Qed.

(** A run of [aggiungi_membro] on a stored department. *)
Lemma aggiungi_membro_run_ok (db : Store) (m replied : Message)
    (a : string) (rest : list string) :
  autorizzato env m = true ->
  db_reachable env = true ->
  reply_to_message m = Some replied ->
  existsb (Sql.reparto_key (chat_id m) (lower a)) (reparti db) = true ->
  run (aggiungi_membro env (mkUpdate (Some m)) (mkContext (Some (a :: rest)))) db =
  let db' := con_membro (chat_id m) (lower a) (from_user replied) db in
  (Ok tt,
   mkSt db' db' [membro_aggiunto (from_user replied) (lower a)] []
        [SELECT_reparti (chat_id m) (lower a);
         INSERT_membri (chat_id m) (lower a) (id (from_user replied))
           (Some (full_name (from_user replied)))]
        (Bound (Some Connection)) Unbound).
Proof.
  intros Ha Hdb Hr He. unfold run, aggiungi_membro.
  rewrite bind_is_admin by assumption. simpl.
  unfold_monad. simpl. rewrite Hr, Hdb. simpl.
  pose proof (proj2 (existsb_filter_nonempty _ _) He) as Hne.
  unfold Sql.select_reparto.
  destruct (filter (Sql.reparto_key (chat_id m) (lower a)) (reparti db));
    [now elim Hne|]. simpl.
  unfold con_membro, Sql.insert_membro. rewrite He.
  now destruct (existsb (Sql.membro_key _ _ _) (membri db)).
Qed.

End Membri.

Lemma con_membro_reparti (chat : Z) (nome : string) (u : User) (db : Store) :
  reparti (con_membro chat nome u db) = reparti db.
Proof. unfold con_membro. now destruct (existsb _ _). Qed.

Lemma con_membro_member (chat : Z) (nome : string) (u : User) (db : Store) :
  existsb (Sql.membro_key chat nome (id u)) (membri (con_membro chat nome u db)) = true.
Proof.
  unfold con_membro.
  destruct (existsb _ (membri db)) eqn:E; [assumption|]. simpl.
  rewrite existsb_app. simpl. rewrite membro_key_refl. now rewrite orb_true_r.
Qed.

(** The INSERT of a key that is stored inserts nothing, whatever the name. *)
Lemma con_membro_twice (chat : Z) (nome : string) (u1 u2 : User) (db : Store) :
  id u2 = id u1 ->
  con_membro chat nome u2 (con_membro chat nome u1 db) = con_membro chat nome u1 db.
Proof.
  intros Hu. unfold con_membro at 1. now rewrite Hu, con_membro_member.
Qed.

(** X3.  An authorized sender answers a user's message with
    [/aggiungi_membro] for a stored department: the run returns normally with
    the confirmation, [reparti] is untouched, the user is among the members of
    the department afterwards, a user who was not a member gets one new row at
    the end of [membri] with the display name, and for a user who already was a
    member the tables stay exactly as they were (the stored name is kept). *)
Theorem aggiungi_membro_ok (env : Env) (db : Store) (m replied : Message)
    (a : string) (rest : list string) :
  autorizzato env m = true ->
  db_reachable env = true ->
  reply_to_message m = Some replied ->
  existsb (Sql.reparto_key (chat_id m) (lower a)) (reparti db) = true ->
  let u := from_user replied in
  let o := run (aggiungi_membro env (mkUpdate (Some m))
                  (mkContext (Some (a :: rest)))) db in
  result o = Ok tt /\
  replies o = [membro_aggiunto u (lower a)] /\
  reparti (final_store o) = reparti db /\
  In (id u) (Sql.select_user_id (chat_id m) (lower a) (final_store o)) /\
  (In (id u) (Sql.select_user_id (chat_id m) (lower a) db) -> final_store o = db) /\
  (~ In (id u) (Sql.select_user_id (chat_id m) (lower a) db) ->
   membri (final_store o) =
   (membri db ++ [mkMembro (chat_id m) (lower a) (id u) (Some (full_name u))])%list).
Proof.
  intros Ha Hdb Hr He. cbv zeta.
  rewrite (aggiungi_membro_run_ok env db m replied a rest Ha Hdb Hr He). cbv zeta.
  unfold result, replies, final_store; cbn [fst snd store sent].
  unfold con_membro, Sql.select_user_id.
  destruct (existsb (Sql.membro_key (chat_id m) (lower a) (id (from_user replied)))
              (membri db)) eqn:Ek.
  - repeat split.
    + now apply existsb_membro_key_user_id.
    + intros Hn. elim Hn. now apply existsb_membro_key_user_id.
  - repeat split.
    + simpl. rewrite filter_app, map_app. apply in_or_app. right. simpl.
      unfold Sql.membro_in; simpl. rewrite Z.eqb_refl, String.eqb_refl. now left.
    + intros Hin. apply existsb_membro_key_user_id in Hin. congruence.
Qed.

Lemma aggiungi_membro_ok_witness :
  let o := run (aggiungi_membro Esempio.env (Esempio.comando_su Esempio.bob)
                  (mkContext (Some ["@NAVAL"]))) Esempio.db in
  result o = Ok tt /\
  replies o = [membro_aggiunto Esempio.bob "@naval"] /\
  reparti (final_store o) = reparti Esempio.db /\
  In 8 (Sql.select_user_id 100 "@naval" (final_store o)) /\
  (In 8 (Sql.select_user_id 100 "@naval" Esempio.db) -> final_store o = Esempio.db) /\
  (~ In 8 (Sql.select_user_id 100 "@naval" Esempio.db) ->
   membri (final_store o) =
   (membri Esempio.db ++ [mkMembro 100 "@naval" 8 (Some "Bob")])%list).
Proof.
  apply (aggiungi_membro_ok Esempio.env Esempio.db
           (Esempio.msg Esempio.capo None
              (Some (Esempio.msg Esempio.bob (Some "ciao") None)))
           (Esempio.msg Esempio.bob (Some "ciao") None) "@NAVAL" []); reflexivity.
Defined.

(** X4.  [/rimuovi_membro] by an authorized sender, answering a message of
    the user: afterwards the user is not among the members of the department,
    [reparti] is untouched, and [membri] keeps, in their order, exactly the
    rows with another key. *)
Theorem rimuovi_membro_effetto_tabelle (env : Env) (db : Store) (m replied : Message)
    (a : string) (rest : list string) :
  autorizzato env m = true ->
  db_reachable env = true ->
  reply_to_message m = Some replied ->
  let u := from_user replied in
  let o := run (rimuovi_membro env (mkUpdate (Some m))
                  (mkContext (Some (a :: rest)))) db in
  result o = Ok tt /\
  reparti (final_store o) = reparti db /\
  ~ In (id u) (Sql.select_user_id (chat_id m) (lower a) (final_store o)) /\
  (forall row, In row (membri (final_store o)) <->
               In row (membri db) /\ membro_pk row <> (chat_id m, lower a, id u)) /\
  (~ In (id u) (Sql.select_user_id (chat_id m) (lower a) db) -> final_store o = db).
Proof.
  intros Ha Hdb Hr. cbv zeta.
  rewrite (rimuovi_membro_run env db m replied a rest Ha Hdb Hr). cbv zeta.
  unfold result, final_store, Sql.delete_membro; cbn [fst snd store reparti membri].
  repeat split.
  - unfold Sql.select_user_id; simpl. intros Hin.
    apply existsb_membro_key_user_id in Hin. apply existsb_exists in Hin.
    destruct Hin as (r & Hr1 & Hr2). apply filter_In in Hr1.
    destruct Hr1 as [_ Hr1]. rewrite Hr2 in Hr1. discriminate.
  - apply filter_In in H. tauto.
  - apply filter_In in H. destruct H as [_ H]. intros Hk.
    apply membro_key_pk in Hk. rewrite Hk in H. discriminate.
  - intros [Hin Hk]. apply filter_In. split; [assumption|].
    destruct (Sql.membro_key _ _ _ row) eqn:K; [|reflexivity].
    apply membro_key_pk in K. contradiction.
  - intros Hn. destruct db as [rs ms]; simpl in *. f_equal.
    apply filter_negb_absent.
    destruct (existsb _ ms) eqn:E; [|reflexivity].
    elim Hn. now apply existsb_membro_key_user_id.
Qed.

Lemma rimuovi_membro_effetto_tabelle_witness :
  let o := run (rimuovi_membro Esempio.env (Esempio.comando_su Esempio.ann)
                  (mkContext (Some ["@aero"]))) Esempio.db in
  final_store o = mkStore [(100, "@aero"); (100, "@naval")] [] /\
  ~ In 7 (Sql.select_user_id 100 "@aero" (final_store o)).
Proof.
  split; [reflexivity|].
  apply (rimuovi_membro_effetto_tabelle Esempio.env Esempio.db
           (Esempio.msg Esempio.capo None
              (Some (Esempio.msg Esempio.ann (Some "ciao") None)))
           (Esempio.msg Esempio.ann (Some "ciao") None) "@aero" []); reflexivity.
Defined.

(** X5.  Adding a user who is not a member and then removing the same user,
    by the same authorized command message, gives back the tables as they
    were before the two commands. *)
Theorem aggiungi_poi_rimuovi (env : Env) (db : Store) (m replied : Message)
    (a : string) (rest : list string) :
  autorizzato env m = true ->
  db_reachable env = true ->
  reply_to_message m = Some replied ->
  existsb (Sql.reparto_key (chat_id m) (lower a)) (reparti db) = true ->
  ~ In (id (from_user replied)) (Sql.select_user_id (chat_id m) (lower a) db) ->
  let upd := mkUpdate (Some m) in
  let ctx := mkContext (Some (a :: rest)) in
  final_store (run (rimuovi_membro env upd ctx)
                 (final_store (run (aggiungi_membro env upd ctx) db))) = db.
Proof.
  intros Ha Hdb Hr He Hn. cbv zeta.
  rewrite (aggiungi_membro_run_ok env db m replied a rest Ha Hdb Hr He). cbv zeta.
  unfold final_store at 2; cbn [snd store].
  rewrite (rimuovi_membro_run env _ m replied a rest Ha Hdb Hr). cbv zeta.
  unfold final_store; cbn [snd store].
  assert (Ek : existsb (Sql.membro_key (chat_id m) (lower a) (id (from_user replied)))
                 (membri db) = false).
  { destruct (existsb _ (membri db)) eqn:E; [|reflexivity].
    elim Hn. now apply existsb_membro_key_user_id. }
  unfold con_membro. rewrite Ek. unfold Sql.delete_membro; simpl.
  destruct db as [rs ms]; simpl in *. f_equal.
  rewrite filter_app. simpl. rewrite membro_key_refl. simpl.
  rewrite app_nil_r. now apply filter_negb_absent.
Qed.

Lemma aggiungi_poi_rimuovi_witness :
  final_store
    (run (rimuovi_membro Esempio.env (Esempio.comando_su Esempio.bob)
            (mkContext (Some ["@aero"])))
       (final_store
          (run (aggiungi_membro Esempio.env (Esempio.comando_su Esempio.bob)
                  (mkContext (Some ["@aero"]))) Esempio.db))) = Esempio.db.
Proof.
  apply (aggiungi_poi_rimuovi Esempio.env Esempio.db
           (Esempio.msg Esempio.capo None
              (Some (Esempio.msg Esempio.bob (Some "ciao") None)))
           (Esempio.msg Esempio.bob (Some "ciao") None) "@aero" []);
    try reflexivity.
  simpl. intuition discriminate.
Defined.

(** X6.  Adding a member a second time changes nothing, also when the user's
    display name or the letter case of the argument differ the second time:
    both commands are confirmed, and the tables after the second are the
    tables after the first, with the name stored by the first. *)
Theorem aggiungi_membro_due_volte (env : Env) (db : Store)
    (m1 m2 replied1 replied2 : Message) (a1 a2 : string) (rest1 rest2 : list string) :
  autorizzato env m1 = true ->
  autorizzato env m2 = true ->
  db_reachable env = true ->
  reply_to_message m1 = Some replied1 ->
  reply_to_message m2 = Some replied2 ->
  chat_id m2 = chat_id m1 ->
  lower a2 = lower a1 ->
  id (from_user replied2) = id (from_user replied1) ->
  existsb (Sql.reparto_key (chat_id m1) (lower a1)) (reparti db) = true ->
  let o1 := run (aggiungi_membro env (mkUpdate (Some m1))
                   (mkContext (Some (a1 :: rest1)))) db in
  let o2 := run (aggiungi_membro env (mkUpdate (Some m2))
                   (mkContext (Some (a2 :: rest2)))) (final_store o1) in
  result o2 = Ok tt /\
  replies o2 = [membro_aggiunto (from_user replied2) (lower a1)] /\
  final_store o2 = final_store o1.
Proof.
  intros Ha1 Ha2 Hdb Hr1 Hr2 Hc Hl Hu He. cbv zeta.
  pose proof (aggiungi_membro_run_ok env db m1 replied1 a1 rest1 Ha1 Hdb Hr1 He)
    as E1.
  assert (He2 : existsb (Sql.reparto_key (chat_id m2) (lower a2))
                  (reparti (con_membro (chat_id m1) (lower a1) (from_user replied1) db))
                = true)
    by now rewrite Hc, Hl, con_membro_reparti.
  pose proof (aggiungi_membro_run_ok env _ m2 replied2 a2 rest2 Ha2 Hdb Hr2 He2)
    as E2.
  cbv zeta in E1, E2. rewrite Hc, Hl in E2.
  rewrite (con_membro_twice _ _ _ _ _ Hu) in E2.
  unfold result, replies, final_store.
  rewrite E1. cbn [fst snd store sent]. rewrite E2. cbn [fst snd store sent].
  now repeat split.
Qed.

Lemma aggiungi_membro_due_volte_witness :
  final_store
    (run (aggiungi_membro Esempio.env
            (mkUpdate (Some (Esempio.msg Esempio.capo None
               (Some (Esempio.msg (mkUser 8 "Roberto") (Some "eccomi") None)))))
            (mkContext (Some ["@Aero"])))
       (final_store
          (run (aggiungi_membro Esempio.env (Esempio.comando_su Esempio.bob)
                  (mkContext (Some ["@aero"]))) Esempio.db)))
  = mkStore [(100, "@aero"); (100, "@naval")]
            [mkMembro 100 "@aero" 7 (Some "Ann"); mkMembro 100 "@aero" 8 (Some "Bob")].
Proof.
  refine (eq_trans
    (proj2 (proj2
      (aggiungi_membro_due_volte Esempio.env Esempio.db
         (Esempio.msg Esempio.capo None
            (Some (Esempio.msg Esempio.bob (Some "ciao") None)))
         (Esempio.msg Esempio.capo None
            (Some (Esempio.msg (mkUser 8 "Roberto") (Some "eccomi") None)))
         (Esempio.msg Esempio.bob (Some "ciao") None)
         (Esempio.msg (mkUser 8 "Roberto") (Some "eccomi") None)
         "@aero" "@Aero" [] []
         eq_refl eq_refl eq_refl eq_refl eq_refl eq_refl eq_refl eq_refl eq_refl)))
    eq_refl).
Defined.

(** ** Refusals and failures *)

Section Rifiuti.

Variable env : Env.

(** What [is_admin] does for a sender who is not authorized. *)
Lemma is_admin_non_autorizzato (m : Message) (db : Store) :
  autorizzato env m = false ->
  is_admin env (mkUpdate (Some m)) (initial db) =
  (Ok false,
   match chat_administrators env (chat_id m) with
   | Some _ => initial db
   | None =>
       mkSt db db [diagnostica_admin]
            ["Errore nel controllare i permessi admin"] [] Unbound Unbound
   end).
Proof.
  unfold autorizzato. intros H. apply orb_false_iff in H. destruct H as [Hp Ha].
  unfold is_admin. unfold_monad. simpl. rewrite Hp.
  destruct (chat_administrators env (chat_id m)); [now rewrite Ha | reflexivity].
Qed.

Lemma rifiuto_run (m : Message) (db : Store) (k : bool -> M unit) :
  autorizzato env m = false ->
  k false = reply_text (mkUpdate (Some m)) solo_admin None ->
  let o := bind (is_admin env (mkUpdate (Some m))) k (initial db) in
  result o = Ok tt /\ replies o = rifiuto env m /\ final_store o = db /\
  statements o = [].
Proof.
  intros Ha Hk. cbv zeta.
  assert (E : bind (is_admin env (mkUpdate (Some m))) k (initial db) =
              reply_text (mkUpdate (Some m)) solo_admin None
                (snd (is_admin env (mkUpdate (Some m)) (initial db)))).
  { unfold bind at 1. now rewrite (is_admin_non_autorizzato m db Ha), Hk. }
  rewrite E, (is_admin_non_autorizzato m db Ha). unfold rifiuto.
  destruct (chat_administrators env (chat_id m)); now repeat split.
Qed.

End Rifiuti.

(** X7.  A sender who is not authorized (not a one-to-one chat, and not
    listed as administrator or the administrator query fails) gets, from each
    of the three administrative commands and whatever the arguments, the
    message for administrators only, after the diagnostic when the query
    failed; the handler returns normally, executes no statement and leaves the
    tables as they were. *)
Theorem comandi_riservati (env : Env) (db : Store) (m : Message) (ctx : Context) :
  autorizzato env m = false ->
  let upd := mkUpdate (Some m) in
  let riservato o :=
    result o = Ok tt /\ replies o = rifiuto env m /\ final_store o = db /\
    statements o = [] in
  riservato (run (crea_reparto env upd ctx) db) /\
  riservato (run (aggiungi_membro env upd ctx) db) /\
  riservato (run (rimuovi_membro env upd ctx) db).
Proof.
  intros Ha. cbv zeta. unfold run.
  split; [|split].
  - unfold crea_reparto. now apply (rifiuto_run env m db _ Ha).
  - unfold aggiungi_membro. now apply (rifiuto_run env m db _ Ha).
  - unfold rimuovi_membro. now apply (rifiuto_run env m db _ Ha).
Qed.

Lemma comandi_riservati_witness :
  replies (run (crea_reparto Esempio.env (Esempio.comando Esempio.bob)
                  (mkContext (Some ["@naval"]))) Esempio.db)
  = [mkReply solo_admin None] /\
  replies (run (rimuovi_membro Esempio.env_senza_admin (Esempio.comando_su Esempio.ann)
                  (mkContext (Some ["@aero"]))) Esempio.db)
  = [diagnostica_admin; mkReply solo_admin None].
Proof.
  split.
  - apply (proj1 (comandi_riservati Esempio.env Esempio.db
                    (Esempio.msg Esempio.bob None None)
                    (mkContext (Some ["@naval"])) eq_refl)).
  - apply (proj2 (proj2 (comandi_riservati Esempio.env_senza_admin Esempio.db
                    (Esempio.msg Esempio.capo None
                       (Some (Esempio.msg Esempio.ann (Some "ciao") None)))
                    (mkContext (Some ["@aero"])) eq_refl))).
Defined.

(** X8.  [/aggiungi_membro] and [/rimuovi_membro] sent by an authorized sender
    but not as an answer to a message: the reply asks to answer the user's
    message, the handler returns normally (also without an argument, because
    this test comes before the argument is read), no statement is executed
    and the tables are unchanged. *)
Theorem senza_messaggio_citato (env : Env) (db : Store) (m : Message) (ctx : Context) :
  autorizzato env m = true ->
  reply_to_message m = None ->
  let upd := mkUpdate (Some m) in
  let o1 := run (aggiungi_membro env upd ctx) db in
  let o2 := run (rimuovi_membro env upd ctx) db in
  (result o1 = Ok tt /\ replies o1 = [rispondi_per_aggiungere] /\
   final_store o1 = db /\ statements o1 = []) /\
  (result o2 = Ok tt /\ replies o2 = [rispondi_per_rimuovere] /\
   final_store o2 = db /\ statements o2 = []).
Proof.
  intros Ha Hr. cbv zeta. unfold run, aggiungi_membro, rimuovi_membro.
  rewrite !bind_is_admin by assumption. simpl.
  unfold_monad. simpl. rewrite Hr. now repeat split.
Qed.

Lemma senza_messaggio_citato_witness :
  replies (run (aggiungi_membro Esempio.env (Esempio.comando Esempio.capo)
                  (mkContext (Some []))) Esempio.db) = [rispondi_per_aggiungere].
Proof.
  apply (proj1 (senza_messaggio_citato Esempio.env Esempio.db
                  (Esempio.msg Esempio.capo None None) (mkContext (Some []))
                  eq_refl eq_refl)).
Defined.

(** X9.  [/crea_reparto] by an authorized sender with a name that does not
    start with the tag marker: the format message is sent and nothing is
    inserted, no statement being executed; the handler then ends with
    [UnboundLocalError], because its [finally] clause reads [conn] before any
    connection was opened. *)
Theorem crea_reparto_formato_errato (env : Env) (db : Store) (m : Message)
    (a : string) (rest : list string) :
  autorizzato env m = true ->
  startswith (lower a) "@" = false ->
  let o := run (crea_reparto env (mkUpdate (Some m))
                  (mkContext (Some (a :: rest)))) db in
  replies o = [formato_errato] /\
  final_store o = db /\
  statements o = [] /\
  result o = Raised UnboundLocalError.
Proof.
  intros Ha Hn. cbv zeta. unfold run, crea_reparto.
  rewrite bind_is_admin by assumption. simpl.
  unfold_monad. simpl. rewrite Hn. now repeat split.
Qed.

Lemma crea_reparto_formato_errato_witness :
  let o := run (crea_reparto Esempio.env (Esempio.comando Esempio.capo)
                  (mkContext (Some ["aero"]))) Esempio.db in
  replies o = [formato_errato] /\
  final_store o = Esempio.db /\
  statements o = [] /\
  result o = Raised UnboundLocalError.
Proof.
  apply (crea_reparto_formato_errato Esempio.env Esempio.db
           (Esempio.msg Esempio.capo None None) "aero" []); reflexivity.
Defined.

(** X10.  When the database cannot be reached, [get_db_connection] returns
    [None] and every handler copes: [/lista_reparto] from any user answers
    with the generic error and the scanner stays silent on any message;
    [/crea_reparto] with a valid name, from an authorized sender, answers with
    its own error reply, and [/aggiungi_membro] and [/rimuovi_membro], from an
    authorized sender answering a message, with the generic error.  Each
    returns normally (the [finally] clause accepts [None]), executes no
    statement and leaves the tables unchanged. *)
Theorem database_irraggiungibile (env : Env) (db : Store) (m : Message)
    (a : string) (rest : list string) :
  db_reachable env = false ->
  let upd := mkUpdate (Some m) in
  let ctx := mkContext (Some (a :: rest)) in
  let esito o (r : list Reply) :=
    result o = Ok tt /\ replies o = r /\ final_store o = db /\ statements o = [] in
  esito (run (lista_reparto env upd ctx) db) [errore_generico] /\
  esito (run (gestore_messaggi env upd) db) [] /\
  (autorizzato env m = true -> startswith (lower a) "@" = true ->
   esito (run (crea_reparto env upd ctx) db) [errore_crea (lower a)]) /\
  (forall replied,
      autorizzato env m = true -> reply_to_message m = Some replied ->
      esito (run (aggiungi_membro env upd ctx) db) [errore_generico] /\
      esito (run (rimuovi_membro env upd ctx) db) [errore_generico]).
Proof.
  intros Hdb. cbv zeta. split; [|split; [|split]].
  - unfold run, lista_reparto. unfold_monad. simpl. rewrite Hdb. now repeat split.
  - unfold run, gestore_messaggi. simpl.
    destruct (text m) as [t|]; [destruct (truthy t)|]; simpl;
      unfold_monad; try rewrite Hdb; now repeat split.
  - intros Ha Hn. unfold run, crea_reparto.
    rewrite !bind_is_admin by assumption. simpl.
    unfold_monad. simpl. rewrite Hn, Hdb. now repeat split.
  - intros replied Ha Hr. unfold run, aggiungi_membro, rimuovi_membro.
    rewrite !bind_is_admin by assumption. simpl.
    unfold_monad. simpl. rewrite Hr, Hdb. now repeat split.
Qed.

Lemma database_irraggiungibile_witness :
  replies (run (lista_reparto (mkEnv false (fun _ => None))
                  (Esempio.comando Esempio.bob)
                  (mkContext (Some ["@aero"]))) Esempio.db) = [errore_generico] /\
  replies (run (gestore_messaggi (mkEnv false (fun _ => None))
                  (Esempio.testo "serve @aero")) Esempio.db) = [] /\
  replies (run (rimuovi_membro (mkEnv false (fun _ => Some [mkChatMember Esempio.capo]))
                  (Esempio.comando_su Esempio.ann)
                  (mkContext (Some ["@aero"]))) Esempio.db) = [errore_generico].
Proof.
  split; [|split].
  - apply (proj1 (database_irraggiungibile (mkEnv false (fun _ => None)) Esempio.db
                    (Esempio.msg Esempio.bob None None) "@aero" [] eq_refl)).
  - apply (proj1 (proj2
             (database_irraggiungibile (mkEnv false (fun _ => None)) Esempio.db
                (Esempio.msg Esempio.ann (Some "serve @aero") None) "@aero" []
                eq_refl))).
  - apply (proj2 (proj2 (proj2 (proj2
             (database_irraggiungibile
                (mkEnv false (fun _ => Some [mkChatMember Esempio.capo])) Esempio.db
                (Esempio.msg Esempio.capo None
                   (Some (Esempio.msg Esempio.ann (Some "ciao") None)))
                "@aero" [] eq_refl)))
             (Esempio.msg Esempio.ann (Some "ciao") None) eq_refl eq_refl)).
Defined.

(** ** Listing and calling after a change *)

Section DopoAggiunta.

Lemma join_empty_app (l1 l2 : list string) :
  join "" (l1 ++ l2) = join "" l1 ++ join "" l2.
Proof.
  induction l1 as [|x l1 IH].
  - reflexivity.
  - change ((x :: l1) ++ l2)%list with (x :: (l1 ++ l2))%list.
    now rewrite !join_empty_cons, IH, append_assoc.
Qed.

(** With the foreign key in force, a department that is not stored has no
    member rows. *)
Lemma fk_reparto_assente (chat : Z) (nome : string) (db : Store) :
  fk_membri db = true ->
  existsb (Sql.reparto_key chat nome) (reparti db) = false ->
  filter (Sql.membro_in chat nome) (membri db) = [].
Proof.
  unfold fk_membri. intros Hfk Hab.
  induction (membri db) as [|r l IH]; simpl in *; [reflexivity|].
  apply andb_true_iff in Hfk. destruct Hfk as [Hr Hl].
  destruct (Sql.membro_in chat nome r) eqn:E; [|now apply IH].
  unfold Sql.membro_in in E. apply andb_true_iff in E. destruct E as [Ec En].
  apply Z.eqb_eq in Ec. apply String.eqb_eq in En. subst. congruence.
Qed.

Lemma select_con_membro (chat : Z) (nome : string) (u : User) (db : Store) :
  ~ In (id u) (Sql.select_user_id chat nome db) ->
  Sql.select_membri chat nome (con_membro chat nome u db) =
    (Sql.select_membri chat nome db ++ [(id u, Some (full_name u))])%list /\
  Sql.select_user_id chat nome (con_membro chat nome u db) =
    (Sql.select_user_id chat nome db ++ [id u])%list /\
  Sql.select_reparto_nome chat (con_membro chat nome u db) =
    Sql.select_reparto_nome chat db.
Proof.
  intros Hn. unfold con_membro.
  destruct (existsb _ (membri db)) eqn:E.
  - elim Hn. now apply existsb_membro_key_user_id.
  - assert (Hin : Sql.membro_in chat nome
                    (mkMembro chat nome (id u) (Some (full_name u))) = true).
    { unfold Sql.membro_in; simpl. now rewrite Z.eqb_refl, String.eqb_refl. }
    unfold Sql.select_membri, Sql.select_user_id, Sql.select_reparto_nome.
    cbn [membri reparti]. rewrite filter_app, !map_app. cbn [filter].
    rewrite Hin. now repeat split.
Qed.

End DopoAggiunta.

(** X11.  [/lista_reparto], which any user may send, answers "Nessun membro
    trovato" both for a stored department without members and, the foreign
    key holding, for a department that is not stored at all: the reply does
    not tell the two apart.  The handler returns normally and the tables are
    unchanged. *)
Theorem lista_reparto_senza_membri (env : Env) (db : Store) (m : Message)
    (a : string) (rest : list string) :
  db_reachable env = true ->
  fk_membri db = true ->
  Sql.select_membri (chat_id m) (lower a) db = [] \/
  existsb (Sql.reparto_key (chat_id m) (lower a)) (reparti db) = false ->
  let o := run (lista_reparto env (mkUpdate (Some m))
                  (mkContext (Some (a :: rest)))) db in
  result o = Ok tt /\
  replies o = [nessun_membro (lower a)] /\
  final_store o = db.
Proof.
  intros Hdb Hfk Hcase. cbv zeta.
  assert (Hnone : Sql.select_membri (chat_id m) (lower a) db = []).
  { destruct Hcase as [H | H]; [assumption|].
    unfold Sql.select_membri. now rewrite fk_reparto_assente. }
  rewrite (lista_reparto_run env db m a rest Hdb), Hnone. now repeat split.
Qed.

Lemma lista_reparto_senza_membri_witness :
  replies (run (lista_reparto Esempio.env (Esempio.comando Esempio.bob)
                  (mkContext (Some ["@naval"]))) Esempio.db)
  = [nessun_membro "@naval"] /\
  replies (run (lista_reparto Esempio.env (Esempio.comando Esempio.bob)
                  (mkContext (Some ["@Rov"]))) Esempio.db)
  = [nessun_membro "@rov"].
Proof.
  split.
  - apply (lista_reparto_senza_membri Esempio.env Esempio.db
             (Esempio.msg Esempio.bob None None) "@naval" []);
      [reflexivity | reflexivity | now left].
  - apply (lista_reparto_senza_membri Esempio.env Esempio.db
             (Esempio.msg Esempio.bob None None) "@Rov" []);
      [reflexivity | reflexivity | now right].
Defined.

Section Occorrenze.

Lemma contains_app_l (n h q : string) :
  contains n h = true -> contains n (h ++ q) = true.
Proof.
  intros H. destruct (contains_inv n h H) as (x & y & ->).
  rewrite !append_assoc. apply contains_app.
Qed.

Lemma contains_app_r (n p h : string) :
  contains n h = true -> contains n (p ++ h) = true.
Proof.
  intros H. destruct (contains_inv n h H) as (x & y & ->).
  rewrite <- append_assoc. apply contains_app.
Qed.

Lemma contains_refl (n : string) : contains n n = true.
Proof.
  pose proof (contains_app n "" "") as H. simpl in H. now rewrite append_nil_r in H.
Qed.

(** Every joined string occurs in the join. *)
Lemma contains_join (sep x : string) (l : list string) :
  In x l -> contains x (join sep l) = true.
Proof.
  induction l as [|y l IH]; [intros []|].
  intros Hin. destruct l as [|z l].
  - destruct Hin as [-> | []]. apply contains_refl.
  - change (join sep (y :: z :: l)) with (y ++ sep ++ join sep (z :: l)).
    destruct Hin as [-> | Hin].
    + apply contains_app_l, contains_refl.
    + apply contains_app_r, contains_app_r, IH, Hin.
Qed.

End Occorrenze.

(** X12.  After a user who was not a member has been added to a stored
    department, [/lista_reparto] sent by anyone in the chat answers with the
    header "Membri del reparto <name>:" and a text in which the line
    "- <user_name> ([ID: <user_id>])" of the new user and of every member
    there was occurs; and a text for which the scanner selects that department
    is answered with the Markdown reply that starts "🔔 Chiamata per <name>:"
    and holds the invisible link [tg://user?id=<user_id>] of the new user and
    of every member there was.  Neither statement depends on the order in
    which the storage returns the rows of [membri]. *)
Theorem aggiunto_poi_elencato (env : Env) (db : Store) (m replied ml mt : Message)
    (a rest al restl t : _) :
  autorizzato env m = true ->
  db_reachable env = true ->
  reply_to_message m = Some replied ->
  existsb (Sql.reparto_key (chat_id m) (lower a)) (reparti db) = true ->
  ~ In (id (from_user replied)) (Sql.select_user_id (chat_id m) (lower a) db) ->
  chat_id ml = chat_id m -> lower al = lower a ->
  chat_id mt = chat_id m -> text mt = Some t ->
  primo_reparto (Sql.select_reparto_nome (chat_id m) db) (lower t) = Some (lower a) ->
  truthy (lower a) = true ->
  let u := from_user replied in
  let db1 := final_store (run (aggiungi_membro env (mkUpdate (Some m))
                                 (mkContext (Some (a :: rest)))) db) in
  (exists b,
      replies (run (lista_reparto env (mkUpdate (Some ml))
                      (mkContext (Some (al :: restl)))) db1) = [mkReply b None] /\
      String.prefix ("Membri del reparto " ++ lower a ++ ":" ++ nl) b = true /\
      forall user_id user_name,
        (user_id, user_name) = (id u, Some (full_name u)) \/
        In (user_id, user_name) (Sql.select_membri (chat_id m) (lower a) db) ->
        contains ("- " ++ str_opt user_name ++ " ([ID: " ++ str_int user_id ++ "])"
                  ++ nl) b = true) /\
  (exists b,
      replies (run (gestore_messaggi env (mkUpdate (Some mt))) db1)
      = [mkReply b (Some "Markdown")] /\
      String.prefix ("🔔 Chiamata per " ++ lower a ++ ":" ++ nl) b = true /\
      forall user_id,
        user_id = id u \/ In user_id (Sql.select_user_id (chat_id m) (lower a) db) ->
        contains ("[" ++ zwsp ++ "](tg://user?id=" ++ str_int user_id ++ ")") b = true).
Proof.
  intros Ha Hdb Hr He Hn Hcl Hal Hct Ht Hp Htr. cbv zeta.
  rewrite (aggiungi_membro_run_ok env db m replied a rest Ha Hdb Hr He). cbv zeta.
  unfold final_store; cbn [snd store].
  destruct (select_con_membro (chat_id m) (lower a) (from_user replied) db Hn)
    as (Hsm & Hsu & Hsr).
  split.
  - rewrite (lista_reparto_run env _ ml al restl Hdb), Hcl, Hal, Hsm.
    unfold replies; cbn [snd sent].
    remember (Sql.select_membri (chat_id m) (lower a) db
              ++ [(id (from_user replied), Some (full_name (from_user replied)))])%list
      as tutti eqn:Et.
    destruct tutti as [|x l]; [now destruct (Sql.select_membri _ _ db)|].
    eexists. split; [reflexivity|]. rewrite righe_membri_join. split.
    + apply prefix_app.
    + intros uid un Hin. apply contains_app_r.
      apply (contains_join "" (riga_membro (uid, un))). apply in_map.
      rewrite Et. apply in_or_app.
      destruct Hin as [-> | Hin]; [right; now left | now left].
  - assert (Htt : truthy t = true).
    { destruct t; [|reflexivity]. apply primo_reparto_in in Hp.
      destruct Hp as [_ Hp]. destruct (lower a); discriminate. }
    rewrite (gestore_messaggi_run env _ mt t Hdb Ht Htt), Hct, Hsr, Hp, Htr, Hsu.
    unfold replies; cbn [snd sent].
    remember (Sql.select_user_id (chat_id m) (lower a) db
              ++ [id (from_user replied)])%list as tutti eqn:Et.
    destruct tutti as [|x l]; [now destruct (Sql.select_user_id _ _ db)|].
    eexists. split; [reflexivity|]. unfold chiamata, messaggio_tags; cbn [body].
    split.
    + rewrite <- !append_assoc. apply prefix_app.
    + intros uid Hin. do 4 apply contains_app_r.
      apply (contains_join " " (tag uid)). apply in_map.
      rewrite Et. apply in_or_app.
      destruct Hin as [-> | Hin]; [right; now left | now left].
Qed.

Lemma aggiunto_poi_elencato_witness :
  let db1 := final_store (run (aggiungi_membro Esempio.env
                                 (Esempio.comando_su Esempio.bob)
                                 (mkContext (Some ["@Aero"]))) Esempio.db) in
  exists b,
    replies (run (gestore_messaggi Esempio.env (Esempio.testo "Serve @AERO")) db1)
    = [mkReply b (Some "Markdown")] /\
    String.prefix ("🔔 Chiamata per @aero:" ++ nl) b = true /\
    forall user_id,
      user_id = 8 \/ In user_id [7] ->
      contains ("[" ++ zwsp ++ "](tg://user?id=" ++ str_int user_id ++ ")") b = true.
Proof.
  refine (proj2 (aggiunto_poi_elencato Esempio.env Esempio.db
                  (Esempio.msg Esempio.capo None
                     (Some (Esempio.msg Esempio.bob (Some "ciao") None)))
                  (Esempio.msg Esempio.bob (Some "ciao") None)
                  (Esempio.msg Esempio.ann None None)
                  (Esempio.msg Esempio.ann (Some "Serve @AERO") None)
                  "@Aero" [] "@aero" [] "Serve @AERO"
                  eq_refl eq_refl eq_refl eq_refl
                  _ eq_refl eq_refl eq_refl eq_refl eq_refl eq_refl)).
  simpl. intuition discriminate.
Defined.

(** ** The schema *)

(** X13.  [setup_database] never drops or changes a table that exists: a
    table keeps its rows, a missing table is created empty when the database
    can be reached (so both tables exist afterwards), nothing changes when it
    cannot, and a second run changes nothing more. *)
Theorem setup_database_idempotente (env : Env) (d : Database) :
  let d1 := fst (setup_database env d) in
  fst (setup_database env d1) = d1 /\
  (forall r, tab_reparti d = Some r -> tab_reparti d1 = Some r) /\
  (forall ms, tab_membri d = Some ms -> tab_membri d1 = Some ms) /\
  (db_reachable env = true -> exists s, store_of d1 = Some s) /\
  (db_reachable env = true -> tab_reparti d = None -> tab_membri d = None ->
   store_of d1 = Some empty_store) /\
  (db_reachable env = false -> d1 = d).
Proof.
  cbv zeta. unfold setup_database, create_membri, create_reparti, store_of.
  destruct d as [[r|] [ms|]]; destruct (db_reachable env); simpl;
    repeat split; intros; try congruence; try discriminate; eauto.
Qed.

(** ** The scanner reads one chat *)

Section UnaChat.

Lemma filter_membro_in_chat (chat : Z) (nome : string) (l : list MembroRow) :
  filter (Sql.membro_in chat nome) (filter (fun r => m_chat_id r =? chat) l) =
  filter (Sql.membro_in chat nome) l.
Proof.
  apply filter_filter_implied. intros r H. unfold Sql.membro_in in H.
  apply andb_true_iff in H. tauto.
Qed.

Lemma select_righe_chat (chat : Z) (db : Store) :
  Sql.select_reparto_nome chat (righe_chat chat db) = Sql.select_reparto_nome chat db /\
  forall nome,
    Sql.select_user_id chat nome (righe_chat chat db) = Sql.select_user_id chat nome db.
Proof.
  unfold Sql.select_reparto_nome, Sql.select_user_id, righe_chat; simpl. split.
  - f_equal. now apply filter_filter_implied.
  - intros nome. now rewrite filter_membro_in_chat.
Qed.

End UnaChat.

(** X14.  What the scanner answers to a message depends on the tables only
    through the rows of the chat of the message: on two databases that hold
    the same rows for that chat, in the same order, it sends the same replies,
    whatever departments and members other chats have. *)
Theorem gestore_messaggi_una_chat (env : Env) (db1 db2 : Store) (m : Message) :
  righe_chat (chat_id m) db1 = righe_chat (chat_id m) db2 ->
  replies (run (gestore_messaggi env (mkUpdate (Some m))) db1) =
  replies (run (gestore_messaggi env (mkUpdate (Some m))) db2).
Proof.
  intros H.
  destruct (select_righe_chat (chat_id m) db1) as [Hr1 Hu1].
  destruct (select_righe_chat (chat_id m) db2) as [Hr2 Hu2].
  rewrite H in Hr1, Hu1.
  assert (Hr : Sql.select_reparto_nome (chat_id m) db1 =
               Sql.select_reparto_nome (chat_id m) db2) by congruence.
  assert (Hu : forall nome, Sql.select_user_id (chat_id m) nome db1 =
                            Sql.select_user_id (chat_id m) nome db2)
    by (intros nome; rewrite <- Hu1, <- Hu2; reflexivity).
  unfold gestore_messaggi; simpl.
  destruct (text m) as [t|]; [|reflexivity].
  destruct (truthy t) eqn:Htt; [|reflexivity]. simpl.
  unfold_monad. destruct (db_reachable env); simpl; [|reflexivity].
  rewrite Hr.
  destruct (primo_reparto _ _) as [r|]; [|reflexivity].
  destruct (truthy r); [|reflexivity]. simpl. rewrite (Hu r).
  now destruct (Sql.select_user_id (chat_id m) r db2).
Qed.

Lemma gestore_messaggi_una_chat_witness :
  replies (run (gestore_messaggi Esempio.env (Esempio.testo "serve @aero"))
             (mkStore [(55, "@aero"); (100, "@aero"); (100, "@naval"); (55, "serve")]
                      [mkMembro 55 "@aero" 9 None; mkMembro 100 "@aero" 7 (Some "Ann")]))
  = replies (run (gestore_messaggi Esempio.env (Esempio.testo "serve @aero"))
               Esempio.db).
Proof.
  apply (gestore_messaggi_una_chat Esempio.env _ Esempio.db
           (Esempio.msg Esempio.ann (Some "serve @aero") None)).
  reflexivity.
Defined.

(** ** Creating, then adding *)

(** X15.  Once an authorized sender has created a department, with a name
    that starts with the tag marker and the database reachable, the same
    sender can add a user to it, naming it in any letter case: the second
    command is confirmed, not answered with the request to create the
    department first, and the user is a member of the lower-cased name. *)
Theorem crea_poi_aggiungi (env : Env) (db : Store) (mc m replied : Message)
    (a a' : string) (rest rest' : list string) :
  autorizzato env mc = true ->
  autorizzato env m = true ->
  db_reachable env = true ->
  startswith (lower a) "@" = true ->
  chat_id m = chat_id mc ->
  lower a' = lower a ->
  reply_to_message m = Some replied ->
  let db1 := final_store (run (crea_reparto env (mkUpdate (Some mc))
                                 (mkContext (Some (a :: rest)))) db) in
  let o := run (aggiungi_membro env (mkUpdate (Some m))
                  (mkContext (Some (a' :: rest')))) db1 in
  result o = Ok tt /\
  replies o = [membro_aggiunto (from_user replied) (lower a)] /\
  In (id (from_user replied))
     (Sql.select_user_id (chat_id mc) (lower a) (final_store o)).
Proof.
  intros Hac Ha Hdb Hn Hc Hl Hr. cbv zeta.
  pose proof (crea_reparto_run env db mc a rest Hac Hdb Hn) as E1. cbv zeta in E1.
  set (db1 := fst (Sql.insert_reparto (chat_id mc) (lower a) db)) in E1.
  assert (He : existsb (Sql.reparto_key (chat_id m) (lower a')) (reparti db1) = true).
  { rewrite Hc, Hl. apply existsb_reparto_key. apply insert_reparto_in. }
  pose proof (aggiungi_membro_run_ok env db1 m replied a' rest' Ha Hdb Hr He) as E.
  cbv zeta in E. rewrite Hc, Hl in E.
  unfold result, replies, final_store. rewrite E1. cbn [fst snd store sent].
  rewrite E. cbn [fst snd store sent]. repeat split.
  apply existsb_membro_key_user_id. apply con_membro_member.
Qed.

Lemma crea_poi_aggiungi_witness :
  let db1 := final_store (run (crea_reparto Esempio.env (Esempio.comando Esempio.capo)
                                 (mkContext (Some ["@Rov"]))) Esempio.db) in
  replies (run (aggiungi_membro Esempio.env (Esempio.comando_su Esempio.bob)
                  (mkContext (Some ["@ROV"]))) db1)
  = [membro_aggiunto Esempio.bob "@rov"].
Proof.
  apply (proj1 (proj2
    (crea_poi_aggiungi Esempio.env Esempio.db
       (Esempio.msg Esempio.capo None None)
       (Esempio.msg Esempio.capo None
          (Some (Esempio.msg Esempio.bob (Some "ciao") None)))
       (Esempio.msg Esempio.bob (Some "ciao") None)
       "@Rov" "@ROV" [] []
       eq_refl eq_refl eq_refl eq_refl eq_refl eq_refl eq_refl))).
Defined.
